(** * qutip.qip.device.modelprocessor: pulse-timeline construction

    A shallow embedding of [ModelProcessor] and [GateDecomposer] from
    [qutip/qip/device/modelprocessor.py], together with the properties of
    the decomposition, parameter normalisation and rasterisation code.

    Conventions.
    - Where the code computes with the values of its floats and the
      result depends on rounding (the quotients by the raster step in
      [pulse_matrix], the scaling in [_para_list]), a float is a binary64
      number of [PrimFloat] and the operations are the IEEE operations,
      in the order in which the code applies them.
    - The durations and coefficients that [GateDecomposer] accumulates,
      adds from left to right and copies are the real numbers ([R]) that
      the floats denote; the coefficient matrix keeps this type in the
      processor, where its entries are only stored, read and multiplied
      by [1.0], which is exact.
    - Python integers are [Z]; lengths and indices that the code obtains
      from [len] and [range] are [nat].
    - A raised exception is a value of [exn]; code that mutates [self]
      threads the object explicitly and keeps the mutated object also when
      an exception is raised, as Python does. *)

From Stdlib Require Import Reals Lra Lia ZArith QArith Floats SpecFloat.
From stdpp Require Import base option list strings gmap.

Local Open Scope string_scope.
Local Open Scope list_scope.
Local Open Scope nat_scope.

(** ** Python exceptions and results *)

Module Py.

Inductive exn : Type :=
| ValueError (msg : string)
| TypeError (msg : string)
| IndexError (msg : string)
| OverflowError (msg : string)
| NotImplementedError (msg : string).

Inductive result (A : Type) : Type :=
| Return (a : A)
| Raise (e : exn).
Arguments Return {A} a.
Arguments Raise {A} e.

Definition is_Return {A} (r : result A) : bool :=
  match r with Return _ => true | Raise _ => false end.

#[export] Instance result_ret : MRet result := λ A a, Return a.

#[export] Instance result_bind : MBind result := λ A B k r,
  match r with
  | Return a => k a
  | Raise e => Raise e
  end.

(** [for x in xs: body], where [body] updates the loop-carried state [s]
    and may raise. *)
Fixpoint for_each {X S} (xs : list X) (body : X → S → result S) (s : S)
  : result S :=
  match xs with
  | [] => Return s
  | x :: xs' => s' ← body x s; for_each xs' body s'
  end.

(** A method runs on [self], may mutate it and may raise; the mutated
    object survives an exception. *)
Definition Meth (S A : Type) : Type := S → result A * S.

#[export] Instance meth_ret {S} : MRet (Meth S) := λ A a self, (Return a, self).

#[export] Instance meth_bind {S} : MBind (Meth S) := λ A B k m self,
  match m self with
  | (Return a, self') => k a self'
  | (Raise e, self') => (Raise e, self')
  end.

Definition raise {S A} (e : exn) : Meth S A := λ self, (Raise e, self).

Definition lift {S A} (r : result A) : Meth S A := λ self, (r, self).

Definition gets {S A} (attr : S → A) : Meth S A :=
  λ self, (Return (attr self), self).

End Py.

Export Py.

(** ** Binary64 floats *)

Module F64.

(** [0.01], the double nearest to one hundredth, and [np.pi]. *)
Definition hundredth : float := 0x1.47ae147ae147bp-7%float.
Definition pi : float := 0x1.921fb54442d18p+1%float.

(** The conversion of a Python [int] to a float, as in [int * float]:
    rounded to the nearest double, ties to even; an [int] that rounds
    beyond the largest double raises [OverflowError]. *)
Definition float_of_int (z : Z) : result float :=
  match binary_normalize prec emax z 0 false with
  | S754_infinity _ => Raise (OverflowError "int too large to convert to float")
  | sf => Return (SF2Prim sf)
  end.

(** [float(n)] for an index [n] of [np.arange], which is exact. *)
Definition of_nat (n : nat) : float :=
  SF2Prim (binary_normalize prec emax (Z.of_nat n) 0 false).

(** [int(np.floor(x))]: the largest integer not above [x]; [int] raises
    for a NaN and for an infinity. *)
Definition int_floor (x : float) : result Z :=
  match Prim2SF x with
  | S754_zero _ => Return 0%Z
  | S754_infinity _ =>
      Raise (OverflowError "cannot convert float infinity to integer")
  | S754_nan => Raise (ValueError "cannot convert float NaN to integer")
  | S754_finite s m e =>
      let n := if s then Z.neg m else Z.pos m in
      Return (if (0 <=? e)%Z then n * 2 ^ e else n / 2 ^ (- e))%Z
  end.

(** [int(np.ceil(x))] *)
Definition int_ceil (x : float) : result Z :=
  k ← int_floor (- x)%float; mret (- k)%Z.

(** The rational number that a finite float is. *)
Definition exact (x : float) : Q :=
  match Prim2SF x with
  | S754_finite s m e => inject_Z (if s then Z.neg m else Z.pos m) * 2 ^ e
  | _ => 0
  end%Q.

End F64.

(** ** The part of NumPy that the module uses *)

Module Np.

(** A one-dimensional array is the list of its entries. A two-dimensional
    array carries its shape, so that an array with zero rows still has a
    number of columns, as [ndarray.shape] does. *)
Record ndarray2 : Type := Array2 {
  shape : nat * nat;
  data : list (list R)
}.

Definition wf (a : ndarray2) : Prop :=
  length (data a) = fst (shape a) ∧
  Forall (fun row => length row = snd (shape a)) (data a).

(** [a[i, j]] for in-range, non-negative indices. *)
Definition get (a : ndarray2) (i j : nat) : result R :=
  if decide (i < fst (shape a) ∧ j < snd (shape a))%nat
  then Return (nth j (nth i (data a) []) 0%R)
  else Raise (IndexError "index is out of bounds").

(** [np.vstack(rows)] for a list of one-dimensional arrays: every array
    becomes one row. An empty list and rows of different lengths raise
    [ValueError]. *)
Definition vstack (rows : list (list R)) : result ndarray2 :=
  match rows with
  | [] => Raise (ValueError "need at least one array to concatenate")
  | r :: rs =>
      if forallb (fun r' => Nat.eqb (length r') (length r)) rs
      then Return (Array2 (length rows, length r) rows)
      else Raise (ValueError "all the input array dimensions except for the concatenation axis must match exactly")
  end.

(** [a.T] *)
Definition T (a : ndarray2) : ndarray2 :=
  Array2 (snd (shape a), fst (shape a))
         (map (fun j => map (fun row => nth j row 0%R) (data a))
              (seq 0 (snd (shape a)))).

(** [np.hstack([xs, ys])] for one-dimensional arrays. *)
Definition hstack (xs ys : list R) : list R := xs ++ ys.

(** [np.empty(n)]: the entries are unspecified; every one of them is
    overwritten before it is read in this module. *)
Definition empty (n : nat) : list R := replicate n 0%R.

(** [np.ones(n)] *)
Definition ones (n : Z) : result (list R) :=
  if decide (n < 0)%Z
  then Raise (ValueError "negative dimensions are not allowed")
  else Return (replicate (Z.to_nat n) 1%R).

(** [np.zeros((r, c))] *)
Definition zeros (r : nat) (c : Z) : result ndarray2 :=
  if decide (c < 0)%Z
  then Raise (ValueError "negative dimensions are not allowed")
  else Return (Array2 (r, Z.to_nat c) (replicate r (replicate (Z.to_nat c) 0%R))).

(** [xs * c] for a one-dimensional array and a scalar. *)
Definition scale (xs : list R) (c : R) : list R := map (λ x, x * c)%R xs.

(** [np.linspace(start, stop, num)]: [num] samples from [start] to
    [stop], both included. With [div = num - 1] and [delta = stop - start],
    sample [i] is [i * (delta / div) + start], or [i / div * delta + start]
    when the step [delta / div] is zero, or [i * delta + start] when
    [div] is zero; the last of several samples is set to [stop]. *)
Definition linspace (start stop : float) (num : Z) : result (list float) :=
  if decide (num < 0)%Z
  then Raise (ValueError "Number of samples must be non-negative")
  else
    let n := Z.to_nat num in
    let div := F64.of_nat (n - 1) in
    let delta := (stop - start)%float in
    let step := (delta / div)%float in
    let sample i :=
      if decide (1 < n)%nat
      then
        if (step =? 0)%float
        then (F64.of_nat i / div * delta + start)%float
        else (F64.of_nat i * step + start)%float
      else (F64.of_nat i * delta + start)%float in
    Return (map (λ i, if decide (1 < n ∧ S i = n)%nat then stop else sample i)
                (seq 0 n)).

(** A bound of a slice of step one on an axis of length [n]: a negative
    bound counts from the end, and the result is clipped to [0..n]. *)
Definition slice_bound (n : nat) (i : Z) : nat :=
  if decide (i < 0)%Z
  then Z.to_nat (Z.max (i + Z.of_nat n) 0)
  else Z.to_nat (Z.min i (Z.of_nat n)).

(** [row[start:stop] = v] on a one-dimensional array: [v] must have the
    length of the slice, or length one, in which case it is broadcast. *)
Definition set_slice (row : list R) (start stop : Z) (v : list R)
  : result (list R) :=
  let a := slice_bound (length row) start in
  let b := slice_bound (length row) stop in
  let k := (b - a)%nat in
  if decide (length v = k) then
    Return (take a row ++ v ++ drop (a + k) row)
  else
    match v with
    | [x] => Return (take a row ++ replicate k x ++ drop (a + k) row)
    | _ => Raise (ValueError "could not broadcast input array into the shape of the slice")
    end.

(** [u[i, start:stop] = v] *)
Definition set_row_slice (u : ndarray2) (i : nat) (start stop : Z) (v : list R)
  : result ndarray2 :=
  match data u !! i with
  | None => Raise (IndexError "index is out of bounds")
  | Some row =>
      row' ← set_slice row start stop v;
      mret (Array2 (shape u) (<[i := row']> (data u)))
  end.

End Np.

(** ** GateDecomposer *)

Module GateDecomposer.

(** A gate of the circuit: its name and the qubits it acts on. *)
Record Gate : Type := mkGate {
  name : string;
  targets : list nat
}.

(** Modelled from the spec: the functions stored in [gate_decomps] are
    defined by the device subclasses, which are not part of this module.
    According to the spec each of them appends zero or more durations to
    [dt_list] and zero or more coefficient rows to [coeff_list]; a
    fragment records what one invocation appends to each list. *)
Record fragment : Type := mkFragment {
  durations : list R;
  rows : list (list R)
}.

(** The object: the attributes set by [__init__] and the two accumulators
    that [decompose] creates. *)
Record t : Type := mk {
  gate_decomps : gmap string (Gate → fragment);
  N : nat;
  num_ops : nat;
  dt_list : list R;
  coeff_list : list (list R)
}.

Definition Meth : Type → Type := Py.Meth t.

Definition set_dt_list (l : list R) : Meth () := λ self,
  (Return (), mk (gate_decomps self) (N self) (num_ops self) l (coeff_list self)).

Definition set_coeff_list (l : list (list R)) : Meth () := λ self,
  (Return (), mk (gate_decomps self) (N self) (num_ops self) (dt_list self) l).

(** [self.gate_decomps[gate.name](gate)] for a registered function [f]. *)
Definition invoke (f : Gate → fragment) (gate : Gate) : Meth () :=
  dl ← gets dt_list;
  set_dt_list (dl ++ durations (f gate));;
  cl ← gets coeff_list;
  set_coeff_list (cl ++ rows (f gate)).

Fixpoint for_gates (gates : list Gate) (body : Gate → Meth ()) : Meth () :=
  match gates with
  | [] => mret ()
  | gate :: rest => body gate;; for_gates rest body
  end.

(** The loop that fills [tlist]:
    [t = 0; for i in range(len(dt_list)): t += dt_list[i]; tlist[i] = t]. *)
Definition tlist_loop (dl : list R) : list R :=
  snd (fold_left
         (λ '(t, tlist) i, let t' := (t + nth i dl 0)%R in (t', <[i := t']> tlist))
         (seq 0 (length dl))
         (0%R, Np.empty (length dl))).

(** The body of the loop over the gates. *)
Definition gate_step (gate : Gate) : Meth () :=
  decomps ← gets gate_decomps;
  match decomps !! name gate with
  | None => raise (ValueError ("Unsupported gate " ++ name gate))
  | Some f => invoke f gate
  end.

Definition decompose (gates : list Gate) : Meth (list R * Np.ndarray2) :=
  set_dt_list [];;
  set_coeff_list [];;
  for_gates gates gate_step;;
  cl ← gets coeff_list;
  stacked ← lift (Np.vstack cl);
  let coeffs := Np.T stacked in
  dl ← gets dt_list;
  let tlist := tlist_loop dl in
  mret (Np.hstack [0%R] tlist, coeffs).

(** [__init__(self, N, params, num_ops)]: the registry starts empty and is
    filled by the subclasses. [params] is stored and never read in this
    module, so the object does not carry it; the two accumulators do not
    exist before the first [decompose], which creates them empty. *)
Definition __init__ (N num_ops : nat) : t := mk ∅ N num_ops [] [].

End GateDecomposer.

(** ** ModelProcessor *)

Module ModelProcessor.

(** A Python number that is an instance of [numbers.Real]: an [int] or a
    [float]. *)
Inductive number : Type :=
| Int (z : Z)
| Float (x : float).

(** The Python values that reach [_para_list] and the keyword arguments of
    [set_up_params]: a real number, a complex number, [None], and a
    sequence of real numbers. *)
Inductive value : Type :=
| VNumber (n : number)
| VComplex (re im : float)
| VNone
| VSeq (xs : list number).

(** [isinstance(v, numbers.Real)] *)
Definition isinstance_Real (v : value) : bool :=
  match v with VNumber _ => true | _ => false end.

(** [isinstance(v, Iterable)] *)
Definition isinstance_Iterable (v : value) : bool :=
  match v with VSeq _ => true | _ => false end.

(** [c * 2 * np.pi]: for an [int] the product with [2] is an exact [int],
    which the product with the float [np.pi] converts to a float; for a
    float both products are float products. *)
Definition times_2pi (c : number) : result float :=
  match c with
  | Int z => x ← F64.float_of_int (z * 2); mret (x * F64.pi)%float
  | Float x => mret (x * 2 * F64.pi)%float
  end.

(** [[f(c) for c in cs]]: the elements are computed in order and the
    first exception ends the comprehension. *)
Fixpoint comprehension {A B} (f : A → result B) (cs : list A) : result (list B) :=
  match cs with
  | [] => mret []
  | c :: cs' => y ← f c; ys ← comprehension f cs'; mret (y :: ys)
  end.

(** [_para_list(self, para, N)]; it does not use [self]. The element of
    [[para * 2 * np.pi] * N] is computed before it is repeated, and the
    repetition is the empty list for a negative [N]. A function body
    that ends without [return] returns [None]. *)
Definition _para_list (para : value) (N : Z) : result value :=
  match para with
  | VNumber p =>
      x ← times_2pi p; mret (VSeq (replicate (Z.to_nat N) (Float x)))
  | VSeq cs =>
      xs ← comprehension times_2pi cs; mret (VSeq (Float <$> xs))
  | _ => mret VNone
  end.

Section Processor.

(** The control Hamiltonians are operators of the numerics library, used
    here only through their number. *)
Variable Qobj : Type.

(** The attributes of the processor that this module reads and writes.
    [tlist] and [coeffs] hold the loaded pulse schedule. *)
Record t : Type := mk {
  N : nat;
  correct_global_phase : bool;
  global_phase : float;
  _paras : gmap string value;
  ctrls : list Qobj;
  tlist : list float;
  coeffs : Np.ndarray2
}.

Definition Meth : Type → Type := Py.Meth t.

(** A call with keyword arguments of a function whose only parameter is
    [self], which the method call has bound already: binding the
    arguments fails on the first keyword, which either names [self]
    again or names no parameter. The messages are the interpreter's up
    to Python 3.9; later versions put the name of the class before the
    name of the function. *)
Definition bind_no_parameters (fname : string) (kwargs : list (string * value))
  : result () :=
  match kwargs with
  | [] => Return ()
  | (k, _) :: _ =>
      if decide (k = "self")
      then Raise (TypeError (fname ++ "() got multiple values for argument 'self'"))
      else Raise (TypeError (fname ++ "() got an unexpected keyword argument '" ++ k ++ "'"))
  end.

Definition set_up_params (kwargs : list (string * value)) : Meth () :=
  lift (bind_no_parameters "set_up_params" kwargs);;
  raise (NotImplementedError "Parameters should be defined in subclass.").

(** The [params] property: the getter and the setter. *)
Definition params : Meth (gmap string value) := gets _paras.

Definition set_params (par : list (string * value)) : Meth () :=
  set_up_params par.

Definition get_ops_and_u (self : t) : list Qobj * Np.ndarray2 :=
  (ctrls self, Np.T (coeffs self)).

(** [tlist[1:] - tlist[:-1]] *)
Definition diff (tlist : list float) : list float :=
  zip_with PrimFloat.sub (drop 1 tlist) (take (length tlist - 1) tlist).

(** The builtin [sum]: it adds the entries to [0] from the left. *)
Definition sum (xs : list float) : float := fold_left PrimFloat.add xs 0%float.

Definition dt : float := F64.hundredth.

(** One pass of the inner loop of [pulse_matrix]:
    [u[mm, t_start:(t_start + t_idx_len)] = np.ones(t_idx_len) * H_u[n, m]],
    then [mm += 1]. The right-hand side is evaluated first. *)
Definition fill_row (H_u : Np.ndarray2) (n : nat) (t_start t_idx_len : Z)
    (m : nat) (s : Np.ndarray2 * nat) : result (Np.ndarray2 * nat) :=
  let '(u, mm) := s in
  ones ← Np.ones t_idx_len;
  c ← Np.get H_u n m;
  u' ← Np.set_row_slice u mm t_start (t_start + t_idx_len) (Np.scale ones c);
  mret (u', S mm).

(** One pass of the outer loop. *)
Definition fill_segment (H_u : Np.ndarray2) (n_ops : nat) (diff_tlist : list float)
    (n : nat) (s : Np.ndarray2 * Z) : result (Np.ndarray2 * Z) :=
  let '(u, t_start) := s in
  t_idx_len ← F64.int_floor (nth n diff_tlist 0 / dt)%float;
  '(u', _) ← for_each (seq 0 n_ops) (fill_row H_u n t_start t_idx_len) (u, 0%nat);
  mret (u', (t_start + t_idx_len)%Z).

(** [pulse_matrix(self)]: the time grid [t] and the raster [u]. The third
    component of the result, the labels, comes unchanged from the parent
    class and is left out. *)
Definition pulse_matrix (self : t) : result (list float * Np.ndarray2) :=
  let '(H_ops, H_u) := get_ops_and_u self in
  let diff_tlist := diff (tlist self) in
  let t_tot := sum diff_tlist in
  n_t ← F64.int_ceil (t_tot / dt)%float;
  let n_ops := length H_ops in
  t ← Np.linspace 0%float t_tot n_t;
  u ← Np.zeros n_ops n_t;
  '(u', _) ← for_each (seq 0 (length diff_tlist))
                      (fill_segment H_u n_ops diff_tlist) (u, 0%Z);
  mret (t, u').

End Processor.

Arguments mk {Qobj}.
Arguments N {Qobj}.
Arguments correct_global_phase {Qobj}.
Arguments global_phase {Qobj}.
Arguments _paras {Qobj}.
Arguments ctrls {Qobj}.
Arguments tlist {Qobj}.
Arguments coeffs {Qobj}.
Arguments set_up_params {Qobj}.
Arguments params {Qobj}.
Arguments set_params {Qobj}.
Arguments get_ops_and_u {Qobj}.
Arguments pulse_matrix {Qobj}.

End ModelProcessor.

(** ** Notions used in the statements *)

Module Spec.

Import GateDecomposer.

(** The decomposer with both accumulators empty. *)
Definition cleared (self : GateDecomposer.t) : GateDecomposer.t :=
  GateDecomposer.mk (gate_decomps self) (GateDecomposer.N self) (num_ops self) [] [].

(** What the function registered for a gate appends when invoked on it. *)
Definition fragment_of (reg : gmap string (Gate → fragment)) (gate : Gate)
  : fragment :=
  match reg !! name gate with
  | Some f => f gate
  | None => mkFragment [] []
  end.

Definition registered (reg : gmap string (Gate → fragment)) (gate : Gate)
  : Prop :=
  is_Some (reg !! name gate).


(** The sum of a list of reals. *)
Definition total (xs : list R) : R := foldr Rplus 0%R xs.

(** The cumulative sums of a list: entry [k] is the sum of the first
    [k + 1] entries. *)
Definition cumulative_sums (xs : list R) : list R :=
  map (λ k, total (take (S k) xs)) (seq 0 (length xs)).

(** The registry of the example: gate X lasts 1 and drives control 0 with
    coefficient 3. *)
Definition X_fragment (gate : Gate) : fragment :=
  mkFragment [1%R] [[3%R; 0%R]].

Definition X_decomposer : GateDecomposer.t :=
  GateDecomposer.mk {[ "X" := X_fragment ]} 1 2 [] [].

Definition X_gate : Gate := mkGate "X" [0%nat].

(** A gate without a registered function. *)
Definition Y_gate : Gate := mkGate "Y" [0%nat].

(** The reading under which row [i] of the returned matrix is the [i]-th
    accumulated row, that is, rows are time segments. *)
Definition rows_are_time_segments (self : GateDecomposer.t) (gates : list Gate)
  : Prop :=
  ∀ tl cs self', decompose gates self = (Return (tl, cs), self') →
    ∀ i j row, coeff_list self' !! i = Some row → j < length row →
      Np.get cs i j = Return (nth j row 0%R).

(** A result that is a raised [NotImplementedError]. *)
Definition raises_not_implemented {A} (r : result A) : Prop :=
  ∃ msg, r = Raise (NotImplementedError msg).

(** A processor with one control, holding a schedule of one segment of
    duration 1 with coefficient 5. *)
Definition one_segment_processor : ModelProcessor.t () :=
  ModelProcessor.mk 1 true 0%float ∅ [()] [0; 1]%float (Np.Array2 (1, 1) [[5%R]]).

(** The number of raster steps of a segment of duration [d]:
    [int(np.floor(d / dt))], and the segments for which the code gets a
    number that is not negative. *)
Definition steps (d : float) : nat :=
  match F64.int_floor (d / ModelProcessor.dt)%float with
  | Return k => Z.to_nat k
  | Raise _ => 0
  end.

Definition rasterable (d : float) : Prop :=
  ∃ k, F64.int_floor (d / ModelProcessor.dt)%float = Return k ∧ (0 ≤ k)%Z.

(** The number of columns of the raster for the segments [ds]:
    [int(np.ceil(sum(ds) / dt))]. *)
Definition columns (ds : list float) : nat :=
  match F64.int_ceil (ModelProcessor.sum ds / ModelProcessor.dt)%float with
  | Return k => Z.to_nat k
  | Raise _ => 0
  end.

(** What the first [n] segments hold of one control: for each segment in
    order, the coefficient [c n'] of the segment repeated over the steps
    of the segment. [ds] are the durations of the segments. *)
Definition held_upto (ds : list float) (c : nat → R) (n : nat) : list R :=
  concat (map (λ n', replicate (steps (nth n' ds 0%float)) (c n')) (seq 0 n)).

(** The raster of [n_t] steps after the first [n] segments: what they
    hold, then zeros. *)
Definition raster_upto (ds : list float) (c : nat → R) (n n_t : nat) : list R :=
  held_upto ds c n ++ replicate (n_t - length (held_upto ds c n)) 0%R.

(** The raster of one control whose coefficients are [row]. *)
Definition raster_row (ds : list float) (row : list R) (n_t : nat) : list R :=
  raster_upto ds (λ n, nth n row 0%R) (length ds) n_t.

(** A loaded schedule as [pulse_matrix] expects it: the coefficient
    matrix has one row for each control and at least one column for each
    segment, the code gets a number of steps that is not negative for
    every segment and a number of columns for the whole, and the steps
    of the segments fit into the columns. *)
Definition schedule_loaded {Qobj} (self : ModelProcessor.t Qobj) : Prop :=
  let ds := ModelProcessor.diff (ModelProcessor.tlist self) in
  Np.wf (ModelProcessor.coeffs self) ∧
  fst (Np.shape (ModelProcessor.coeffs self)) = length (ModelProcessor.ctrls self) ∧
  length ds ≤ snd (Np.shape (ModelProcessor.coeffs self)) ∧
  Forall rasterable ds ∧
  F64.int_ceil (ModelProcessor.sum ds / ModelProcessor.dt)%float =
    Return (Z.of_nat (columns ds)) ∧
  sum_list_with steps ds ≤ columns ds.

(** The doubles nearest to [0.35], [0.1] and [0.3]. *)
Definition f0_35 : float := 0x1.6666666666666p-2%float.
Definition f0_1 : float := 0x1.999999999999ap-4%float.
Definition f0_3 : float := 0x1.3333333333333p-2%float.

(** The reading of the rasterisation under which the widths of the
    rastered segments, [steps * dt] each, add up to at most the duration
    of the schedule, compared as exact numbers. *)
Definition widths_within_duration (ds : list float) : Prop :=
  (inject_Z (Z.of_nat (sum_list_with steps ds)) * F64.exact ModelProcessor.dt
   <= F64.exact (ModelProcessor.sum ds))%Q.

(** A result that is a returned list. *)
Definition returns_list (r : result ModelProcessor.value) : Prop :=
  ∃ xs, r = Return (ModelProcessor.VSeq xs).

(** The rows that the registered functions append for [gates], in
    order, and the durations. *)
Definition appended_rows (reg : gmap string (Gate → fragment))
    (gates : list Gate) : list (list R) :=
  gates ≫= λ g, rows (fragment_of reg g).

Definition appended_durations (reg : gmap string (Gate → fragment))
    (gates : list Gate) : list R :=
  gates ≫= λ g, durations (fragment_of reg g).

(** A list of rows that can be stacked: it is not empty and all rows
    have the length of the first. *)
Definition stackable (rws : list (list R)) : Prop :=
  ∃ r rs, rws = r :: rs ∧ Forall (λ r', length r' = length r) rs.

(** Every row that a registered function appends has [num_ops] entries. *)
Definition rows_have_num_ops (self : GateDecomposer.t) : Prop :=
  ∀ nm f gate row, gate_decomps self !! nm = Some f →
    row ∈ rows (f gate) → length row = num_ops self.


(** The running sums of [ds] started at [t], with [t] in front. *)
Fixpoint breakpoints_from (t : R) (ds : list R) : list R :=
  match ds with
  | [] => [t]
  | d :: ds' => t :: breakpoints_from (t + d) ds'
  end.

(** A registry with a gate that appends nothing, as a gate that only
    changes the global phase does. *)
Definition phase_fragment (gate : Gate) : fragment := mkFragment [] [].

Definition phase_decomposer : GateDecomposer.t :=
  GateDecomposer.mk {[ "GLOBALPHASE" := phase_fragment ]} 1 2 [] [].

Definition phase_gate : Gate := mkGate "GLOBALPHASE" [].

(** A registry whose functions append rows of different lengths. *)
Definition Z_fragment (gate : Gate) : fragment :=
  mkFragment [2%R] [[1%R]].

Definition XZ_decomposer : GateDecomposer.t :=
  GateDecomposer.mk (<[ "Z" := Z_fragment ]> {[ "X" := X_fragment ]}) 1 2 [] [].

Definition Z_gate : Gate := mkGate "Z" [0%nat].

(** A processor holding the timeline [tl] and the coefficients [cs] for
    [n] controls. *)
Definition processor_with (n : nat) (tl : list float) (cs : Np.ndarray2)
  : ModelProcessor.t () :=
  ModelProcessor.mk 1 true 0%float ∅ (replicate n ()) tl cs.

(** A processor with one control and the timeline [[0, 0.1, 0.3]]. *)
Definition two_segment_processor : ModelProcessor.t () :=
  processor_with 1 [0; f0_1; f0_3]%float (Np.Array2 (1, 2) [[5; 7]]%R).

End Spec.

(** ** Properties of the NumPy operations *)

Module NpFacts.

(** What a successful [np.vstack] returns. *)
Lemma vstack_Return rows a :
  Np.vstack rows = Return a →
  ∃ r rs, rows = r :: rs ∧ a = Np.Array2 (length rows, length r) rows ∧
    Forall (λ r', length r' = length r) rows.
Proof.
  destruct rows as [|r rs]; [done|]. cbn.
  destruct (forallb _ rs) eqn:Hall; [|done].
  intros [= <-]. exists r, rs. split_and!; [done..|].
  constructor; [done|].
  pose proof (proj1 (forallb_forall _ _) Hall) as Hall'.
  apply Forall_forall. intros r' Hr'.
  apply Nat.eqb_eq, Hall'. by apply list_elem_of_In.
Qed.

(** Reading the transpose. *)
Lemma get_T a i j :
  Np.wf a → i < fst (Np.shape a) → j < snd (Np.shape a) →
  Np.get (Np.T a) j i = Return (nth j (nth i (Np.data a) []) 0%R).
Proof.
  intros [Hlen Hrows] Hi Hj. unfold Np.get, Np.T. cbn.
  rewrite decide_True by done. f_equal.
  erewrite (nth_lookup_Some _ j); last first.
  { rewrite list_lookup_fmap, lookup_seq_lt by done. done. }
  destruct (lookup_lt_is_Some_2 (Np.data a) i) as [row Hrow]; [lia|].
  erewrite (nth_lookup_Some _ i); last first.
  { rewrite list_lookup_fmap, Hrow. done. }
  by rewrite (nth_lookup_Some _ _ _ _ Hrow).
Qed.

Lemma slice_bound_in_range (n i : nat) :
  i ≤ n → Np.slice_bound n (Z.of_nat i) = i.
Proof.
  intros Hi. unfold Np.slice_bound. case_decide; [lia|].
  rewrite Z.min_l by lia. apply Nat2Z.id.
Qed.

Lemma set_slice_fits (row : list R) (a k : nat) (v : list R) :
  a + k ≤ length row → length v = k →
  Np.set_slice row (Z.of_nat a) (Z.of_nat a + Z.of_nat k) v =
  Return (take a row ++ v ++ drop (a + k) row).
Proof.
  intros Hfit Hv. unfold Np.set_slice.
  rewrite <- Nat2Z.inj_add, !slice_bound_in_range by lia.
  replace (a + k - a) with k by lia.
  by rewrite decide_True.
Qed.

Lemma for_each_app {X S} (xs ys : list X) (body : X → S → result S) s :
  for_each (xs ++ ys) body s = (s' ← for_each xs body s; for_each ys body s').
Proof.
  revert s. induction xs as [|x xs IH]; intros s; [done|].
  cbn. destruct (body x s); [apply IH|done].
Qed.

End NpFacts.

(** ** Properties of GateDecomposer *)

Module GateDecomposerFacts.

Import GateDecomposer Spec NpFacts.

Lemma invoke_eq f gate self :
  invoke f gate self =
  (Return (), GateDecomposer.mk (gate_decomps self) (GateDecomposer.N self) (num_ops self)
                (dt_list self ++ durations (f gate))
                (coeff_list self ++ rows (f gate))).
Proof. reflexivity. Qed.

Lemma decompose_unfold gates self :
  decompose gates self =
  match for_gates gates gate_step (cleared self) with
  | (Return _, self') =>
      match Np.vstack (coeff_list self') with
      | Return stacked =>
          (Return (Np.hstack [0%R] (tlist_loop (dt_list self')), Np.T stacked), self')
      | Raise e => (Raise e, self')
      end
  | (Raise e, self') => (Raise e, self')
  end.
Proof.
  unfold decompose, mbind, meth_bind, set_dt_list, set_coeff_list; cbn.
  change (GateDecomposer.mk _ _ _ [] []) with (cleared self).
  destruct (for_gates gates gate_step (cleared self)) as [[[]|e] self']; [|done].
  unfold gets, lift, mret, meth_ret.
  destruct (Np.vstack (coeff_list self')); done.
Qed.

Lemma gate_step_registered f gate self :
  gate_decomps self !! name gate = Some f →
  gate_step gate self = invoke f gate self.
Proof.
  intros Hf. unfold gate_step, mbind, meth_bind, gets. by rewrite Hf.
Qed.

Lemma gate_step_unregistered gate self :
  gate_decomps self !! name gate = None →
  gate_step gate self = (Raise (ValueError ("Unsupported gate " ++ name gate)), self).
Proof.
  intros Hf. unfold gate_step, mbind, meth_bind, gets. by rewrite Hf.
Qed.

Lemma fragment_of_registered reg gate f :
  reg !! name gate = Some f → fragment_of reg gate = f gate.
Proof. intros Hf. unfold fragment_of. by rewrite Hf. Qed.

(** The state after the functions of [gates] have run on [self]. *)
Lemma for_gates_registered gates self :
  Forall (registered (gate_decomps self)) gates →
  for_gates gates gate_step self =
  (Return (),
   GateDecomposer.mk (gate_decomps self) (GateDecomposer.N self) (num_ops self)
     (dt_list self ++ (gates ≫= λ g, durations (fragment_of (gate_decomps self) g)))
     (coeff_list self ++ (gates ≫= λ g, rows (fragment_of (gate_decomps self) g)))).
Proof.
  intros Hall. revert self Hall.
  induction gates as [|g gates IH]; intros self Hall.
  - cbn. rewrite !app_nil_r. by destruct self.
  - apply Forall_cons in Hall as [[f Hf] Hall].
    cbn [for_gates]. unfold mbind at 1, meth_bind at 1.
    rewrite (gate_step_registered f) by done. rewrite invoke_eq.
    rewrite IH; [|exact Hall].
    rewrite !bind_cons, (fragment_of_registered _ _ _ Hf).
    cbn [gate_decomps GateDecomposer.N num_ops dt_list coeff_list].
    by rewrite <- !app_assoc.
Qed.

Lemma for_gates_unregistered pre g post self :
  Forall (registered (gate_decomps self)) pre →
  gate_decomps self !! name g = None →
  for_gates (pre ++ g :: post) gate_step self =
  (Raise (ValueError ("Unsupported gate " ++ name g)),
   GateDecomposer.mk (gate_decomps self) (GateDecomposer.N self) (num_ops self)
     (dt_list self ++ (pre ≫= λ g, durations (fragment_of (gate_decomps self) g)))
     (coeff_list self ++ (pre ≫= λ g, rows (fragment_of (gate_decomps self) g)))).
Proof.
  intros Hall Hg. revert self Hall Hg.
  induction pre as [|p pre IH]; intros self Hall Hg.
  - cbn [app for_gates]. unfold mbind at 1, meth_bind at 1.
    rewrite gate_step_unregistered by done.
    cbn. rewrite !app_nil_r. by destruct self.
  - apply Forall_cons in Hall as [[f Hf] Hall].
    cbn [app for_gates]. unfold mbind at 1, meth_bind at 1.
    rewrite (gate_step_registered f) by done. rewrite invoke_eq.
    rewrite IH; [|exact Hall|exact Hg].
    rewrite !bind_cons, (fragment_of_registered _ _ _ Hf).
    cbn [gate_decomps GateDecomposer.N num_ops dt_list coeff_list].
    by rewrite <- !app_assoc.
Qed.

(** Either every gate is registered, or the sequence splits at the first
    gate that is not. *)
Lemma first_unregistered reg (gates : list Gate) :
  Forall (registered reg) gates ∨
  ∃ pre g post, gates = pre ++ g :: post ∧
    Forall (registered reg) pre ∧ reg !! name g = None.
Proof.
  induction gates as [|g gates IH]; [by left|].
  destruct (reg !! name g) as [f|] eqn:Hg.
  - destruct IH as [Hall|(pre & g' & post & -> & Hpre & Hg')].
    + left. constructor; [by exists f|done].
    + right. exists (g :: pre), g', post. split_and!; [done| |done].
      constructor; [by exists f|done].
  - right. by exists [], g, gates.
Qed.

Lemma total_snoc xs x : total (xs ++ [x]) = (total xs + x)%R.
Proof.
  unfold total. induction xs as [|y xs IH]; cbn; [lra|].
  rewrite IH. lra.
Qed.

(** The state of the loop of [tlist_loop] after [k] passes. *)
Lemma tlist_loop_prefix dl k :
  k ≤ length dl →
  fold_left
    (λ '(t, tlist) i, let t' := (t + nth i dl 0)%R in (t', <[i := t']> tlist))
    (seq 0 k) (0%R, Np.empty (length dl)) =
  (total (take k dl),
   map (λ j, total (take (S j) dl)) (seq 0 k) ++ replicate (length dl - k) 0%R).
Proof.
  induction k as [|k IH]; intros Hk.
  - cbn. by rewrite Nat.sub_0_r.
  - rewrite seq_S, fold_left_app, IH by lia. cbn [fold_left Nat.add].
    destruct (lookup_lt_is_Some_2 dl k) as [x Hx]; [lia|].
    rewrite (take_S_r _ _ _ Hx), total_snoc, (nth_lookup_Some _ _ _ _ Hx).
    f_equal.
    rewrite insert_app_r_alt; rewrite length_map, length_seq; [|lia].
    rewrite Nat.sub_diag.
    replace (length dl - k) with (S (length dl - S k)) by lia.
    rewrite map_app. cbn. rewrite <- app_assoc. cbn.
    by rewrite (take_S_r _ _ _ Hx), total_snoc.
Qed.

Lemma tlist_loop_cumulative dl : tlist_loop dl = cumulative_sums dl.
Proof.
  unfold tlist_loop. rewrite tlist_loop_prefix by done.
  rewrite Nat.sub_diag. cbn. by rewrite app_nil_r.
Qed.

Lemma length_cumulative_sums xs : length (cumulative_sums xs) = length xs.
Proof. unfold cumulative_sums. by rewrite length_map, length_seq. Qed.

Lemma X_registered : registered (gate_decomps X_decomposer) X_gate.
Proof. exists X_fragment. apply lookup_singleton_eq. Qed.

Lemma Y_unregistered : gate_decomps X_decomposer !! name Y_gate = None.
Proof. by apply lookup_singleton_ne. Qed.

(** The two-gate example, evaluated. *)
Lemma decompose_XX :
  decompose [X_gate; X_gate] X_decomposer =
  (Return ([0; 1; 2]%R, Np.Array2 (2, 2) [[3; 3]; [0; 0]]%R),
   GateDecomposer.mk {[ "X" := X_fragment ]} 1 2 [1; 1]%R [[3; 0]; [3; 0]]%R).
Proof.
  rewrite decompose_unfold. change (cleared X_decomposer) with X_decomposer.
  rewrite for_gates_registered by (repeat constructor; apply X_registered).
  destruct X_registered as [f Hf].
  rewrite !bind_cons, (fragment_of_registered _ _ _ Hf).
  assert (f = X_fragment) as ->.
  { cbn in Hf. rewrite lookup_singleton_eq in Hf. congruence. }
  cbn. repeat f_equal; lra.
Qed.

Lemma decompose_XY :
  decompose [X_gate; Y_gate] X_decomposer =
  (Raise (ValueError "Unsupported gate Y"),
   GateDecomposer.mk {[ "X" := X_fragment ]} 1 2 [1%R] [[3; 0]%R]).
Proof.
  rewrite decompose_unfold. change (cleared X_decomposer) with X_decomposer.
  rewrite (for_gates_unregistered [X_gate] Y_gate [])
    by (repeat constructor; apply X_registered || apply Y_unregistered).
  destruct X_registered as [f Hf].
  rewrite !bind_cons, (fragment_of_registered _ _ _ Hf).
  assert (f = X_fragment) as ->.
  { cbn in Hf. rewrite lookup_singleton_eq in Hf. congruence. }
  reflexivity.
Qed.

(** The next call starts from empty accumulators, whatever the previous
    call left in them. *)
Lemma decompose_resets gates self :
  decompose gates self = decompose gates (cleared self).
Proof. by rewrite !decompose_unfold. Qed.

(** C1: on the empty gate sequence [decompose] does not return: stacking
    the empty list of coefficient rows raises [ValueError], where the claim
    expects the breakpoints [[0]] and a matrix without columns. *)
Theorem decompose_empty_raises self :
  decompose [] self =
  (Raise (ValueError "need at least one array to concatenate"), cleared self).
Proof. by rewrite decompose_unfold. Qed.

(** C2, as stated: in the two-gate example the returned matrix does not
    have the time segments as its rows. *)
Lemma rows_are_not_time_segments :
  ¬ rows_are_time_segments X_decomposer [X_gate; X_gate].
Proof.
  intros H.
  specialize (H _ _ _ decompose_XX 0 1 [3; 0]%R eq_refl ltac:(cbn; lia)).
  cbn in H. injection H as H. lra.
Qed.

(** C2, amended: the returned matrix is the transpose of the stacked rows:
    it has one column for each accumulated row, one row for each entry of
    an accumulated row, and the entry in row [j] and column [i] is entry
    [j] of the [i]-th accumulated row. Rows are control operators and
    columns are time segments. *)
Theorem decompose_coeffs_transposed self gates tl cs self' :
  decompose gates self = (Return (tl, cs), self') →
  snd (Np.shape cs) = length (coeff_list self') ∧
  ∀ i row, coeff_list self' !! i = Some row →
    fst (Np.shape cs) = length row ∧
    ∀ j, j < length row → Np.get cs j i = Return (nth j row 0%R).
Proof.
  rewrite decompose_unfold.
  destruct (for_gates gates gate_step (cleared self)) as [[[]|e] self1]; [|done].
  destruct (Np.vstack (coeff_list self1)) as [a|e] eqn:Hst; [|done].
  intros [= <- <- <-].
  apply vstack_Return in Hst as (r & rs & Hcl & -> & Hlen).
  split; [done|]. intros i row Hrow.
  pose proof (proj1 (Forall_lookup _ _) Hlen i row Hrow) as Hr. cbn in Hr.
  split; [done|]. intros j Hj.
  rewrite get_T; cbn.
  - by rewrite (nth_lookup_Some _ _ _ _ Hrow).
  - split; [done|]. cbn. by rewrite Hcl in Hlen |- *.
  - by eapply lookup_lt_Some.
  - lia.
Qed.

Lemma decompose_coeffs_transposed_witness :
  snd (Np.shape (Np.Array2 (2, 2) [[3; 3]; [0; 0]]%R)) = 2 ∧
  ∀ i row, [[3; 0]; [3; 0]]%R !! i = Some row →
    fst (Np.shape (Np.Array2 (2, 2) [[3; 3]; [0; 0]]%R)) = length row ∧
    ∀ j, j < length row →
      Np.get (Np.Array2 (2, 2) [[3; 3]; [0; 0]]%R) j i = Return (nth j row 0%R).
Proof.
  exact (decompose_coeffs_transposed X_decomposer [X_gate; X_gate] _ _ _ decompose_XX).
Defined.

(** C3: when some gate of the sequence has no entry in [gate_decomps],
    [decompose] raises [ValueError] with the message "Unsupported gate"
    followed by the name of the first such gate, so no timeline is
    returned; and the next call behaves as on a decomposer whose
    accumulators are empty. *)
Theorem decompose_unsupported_gate self gates :
  Exists (λ g, gate_decomps self !! name g = None) gates →
  ∃ pre g post,
    gates = pre ++ g :: post ∧
    Forall (registered (gate_decomps self)) pre ∧
    gate_decomps self !! name g = None ∧
    fst (decompose gates self) = Raise (ValueError ("Unsupported gate " ++ name g)) ∧
    ∀ gates', decompose gates' (snd (decompose gates self)) =
              decompose gates' (cleared self).
Proof.
  intros Hex.
  destruct (first_unregistered (gate_decomps self) gates)
    as [Hall|(pre & g & post & -> & Hpre & Hg)].
  - apply Exists_exists in Hex as (g & Hin & Hg).
    pose proof (proj1 (Forall_forall _ _) Hall g Hin) as [f Hf]. congruence.
  - exists pre, g, post. split_and!; [done..| |].
    + rewrite decompose_unfold.
      by rewrite (for_gates_unregistered pre g post (cleared self)).
    + intros gates'. rewrite decompose_resets. f_equal.
      rewrite decompose_unfold.
      by rewrite (for_gates_unregistered pre g post (cleared self)).
Qed.

Lemma decompose_unsupported_gate_witness :
  ∃ pre g post,
    [X_gate; Y_gate] = pre ++ g :: post ∧
    Forall (registered (gate_decomps X_decomposer)) pre ∧
    gate_decomps X_decomposer !! name g = None ∧
    fst (decompose [X_gate; Y_gate] X_decomposer) =
      Raise (ValueError ("Unsupported gate " ++ name g)) ∧
    ∀ gates', decompose gates' (snd (decompose [X_gate; Y_gate] X_decomposer)) =
              decompose gates' (cleared X_decomposer).
Proof.
  apply (decompose_unsupported_gate X_decomposer [X_gate; Y_gate]).
  apply Exists_cons_tl, Exists_cons_hd. exact Y_unregistered.
Defined.



(** C5: with gate X registered to append the duration 1 and the row
    [[3, 0]], decomposing the two gates X, X on two controls returns the
    breakpoints [[0, 1, 2]] and the 2 by 2 matrix [[[3, 3], [0, 0]]]. *)
Theorem decompose_example :
  fst (decompose [X_gate; X_gate] X_decomposer) =
  Return ([0; 1; 2]%R, Np.Array2 (2, 2) [[3; 3]; [0; 0]]%R).
Proof. by rewrite decompose_XX. Qed.

(** C9: when the gate after the registered gates [pre] has no entry in
    [gate_decomps], the object left by the failing call holds in [dt_list]
    and [coeff_list] what the functions of [pre] appended, in order; the
    next call clears both lists before it does anything else. *)
Theorem decompose_failure_keeps_entries self pre g post :
  Forall (registered (gate_decomps self)) pre →
  gate_decomps self !! name g = None →
  let self' := snd (decompose (pre ++ g :: post) self) in
  dt_list self' = (pre ≫= λ g, durations (fragment_of (gate_decomps self) g)) ∧
  coeff_list self' = (pre ≫= λ g, rows (fragment_of (gate_decomps self) g)) ∧
  ∀ gates', decompose gates' self' = decompose gates' (cleared self').
Proof.
  intros Hpre Hg self'. subst self'.
  rewrite decompose_unfold.
  rewrite (for_gates_unregistered pre g post (cleared self)) by done.
  cbn. split_and!; [done..|]. intros gates'. apply decompose_resets.
Qed.

Lemma decompose_failure_keeps_entries_witness :
  let self' := snd (decompose ([X_gate] ++ Y_gate :: []) X_decomposer) in
  dt_list self' =
    ([X_gate] ≫= λ g, durations (fragment_of (gate_decomps X_decomposer) g)) ∧
  coeff_list self' =
    ([X_gate] ≫= λ g, rows (fragment_of (gate_decomps X_decomposer) g)) ∧
  ∀ gates', decompose gates' self' = decompose gates' (cleared self').
Proof.
  apply (decompose_failure_keeps_entries X_decomposer [X_gate] Y_gate []).
  - repeat constructor. exact X_registered.
  - exact Y_unregistered.
Defined.

End GateDecomposerFacts.

(** ** Properties of ModelProcessor *)

Module ModelProcessorFacts.

Import ModelProcessor Spec NpFacts.

#[local] Arguments held_upto : simpl never.
#[local] Arguments raster_upto : simpl never.

Lemma comprehension_Forall2 {A B} (f : A → result B) cs ys :
  Forall2 (λ c y, f c = Return y) cs ys → comprehension f cs = Return ys.
Proof.
  induction 1 as [|c y cs ys Hc _ IH]; [done|].
  cbn. rewrite Hc. cbn. by rewrite IH.
Qed.

(** C6, as stated: for the [int] [10 ** 400], which is a real number,
    [_para_list] returns no list: converting the [int] to a float for the
    product with [np.pi] raises [OverflowError]. *)
Lemma para_list_int_overflow :
  ¬ returns_list (_para_list (VNumber (Int (10 ^ 400))) 3).
Proof. intros [xs Hxs]. vm_compute in Hxs. discriminate Hxs. Qed.

(** C6, amended: for a real number [p] whose product [p * 2 * np.pi] the
    code can compute, to the float [y], and a count [N], [_para_list]
    returns the list of [N] entries [y]; for a sequence of such numbers
    it returns the products of its entries, in the same order and
    number, whatever [N] is. The product is [(x * 2) * np.pi] in floats
    for a float [x]; for an [int] it is the float of the doubled [int]
    times [np.pi], and when the doubled [int] is beyond the floats the
    call raises the [OverflowError] of the conversion. *)
Theorem para_list_scales (p : number) (y : float) (cs : list number)
    (ys : list float) (N : nat) (M : Z) :
  times_2pi p = Return y →
  Forall2 (λ c y, times_2pi c = Return y) cs ys →
  _para_list (VNumber p) (Z.of_nat N) = Return (VSeq (replicate N (Float y))) ∧
  length (replicate N (Float y)) = N ∧
  _para_list (VSeq cs) M = Return (VSeq (Float <$> ys)) ∧
  length (Float <$> ys) = length cs ∧
  (∀ x, times_2pi (Float x) = Return (x * 2 * F64.pi)%float) ∧
  (∀ z x, F64.float_of_int (z * 2) = Return x →
          times_2pi (Int z) = Return (x * F64.pi)%float) ∧
  (∀ z e K, F64.float_of_int (z * 2) = Raise e →
            _para_list (VNumber (Int z)) K = Raise e).
Proof.
  intros Hp Hcs. split_and!.
  - cbn. rewrite Hp. cbn. by rewrite Nat2Z.id.
  - apply length_replicate.
  - cbn. by rewrite (comprehension_Forall2 _ _ _ Hcs).
  - rewrite length_fmap. symmetry. by eapply Forall2_length.
  - done.
  - intros z x Hx. cbn. by rewrite Hx.
  - intros z e K He. cbn. by rewrite He.
Qed.

Lemma para_list_scales_witness :
  _para_list (VNumber (Float 1.5)) (Z.of_nat 2) =
    Return (VSeq (replicate 2 (Float (1.5 * 2 * F64.pi)%float))) ∧
  _para_list (VSeq [Int 1; Float 0.5]) 7 =
    Return (VSeq (Float <$> [(2 * F64.pi)%float; (0.5 * 2 * F64.pi)%float])).
Proof.
  destruct (para_list_scales (Float 1.5) (1.5 * 2 * F64.pi)%float
              [Int 1; Float 0.5] [(2 * F64.pi)%float; (0.5 * 2 * F64.pi)%float]
              2 7) as (Hp & _ & Hcs & _); [done| |by split].
  repeat constructor.
Defined.

(** C10: a value that is neither a real number nor iterable, such as a
    complex number, makes [_para_list] return [None]; nothing is raised. *)
Theorem para_list_neither para N :
  isinstance_Real para = false →
  isinstance_Iterable para = false →
  _para_list para N = Return VNone.
Proof. by destruct para. Qed.

Lemma para_list_neither_witness :
  _para_list (VComplex 1 2) 3 = Return VNone.
Proof. exact (para_list_neither (VComplex 1 2) 3 eq_refl eq_refl). Defined.

(** C8: where the claim expects [NotImplementedError] from every
    assignment to [params] on the base class, the code raises it only for
    the call without arguments and for the empty mapping: for a mapping
    with an entry the call fails while its first entry is bound as a
    keyword argument, with [TypeError], and the body of [set_up_params],
    which raises [NotImplementedError], does not run. The object is left
    as it was in every case. *)
Theorem set_up_params_raises {Qobj} (self : ModelProcessor.t Qobj) :
  set_up_params [] self =
    (Raise (NotImplementedError "Parameters should be defined in subclass."), self) ∧
  set_params [] self =
    (Raise (NotImplementedError "Parameters should be defined in subclass."), self) ∧
  set_params [("w0", VNumber (Float 1))] self =
    (Raise (TypeError "set_up_params() got an unexpected keyword argument 'w0'"), self) ∧
  (∀ k v par, ∃ msg,
     set_params ((k, v) :: par) self = (Raise (TypeError msg), self)) ∧
  (∀ par, raises_not_implemented (fst (set_params par self)) ↔ par = []).
Proof.
  split_and!; [done..| |].
  - intros k v par. unfold set_params, set_up_params, bind_no_parameters.
    cbn. case_decide; by eexists.
  - intros [|[k v] par]; split; try done.
    + intros _. by eexists.
    + intros [msg Hmsg]. unfold set_params, set_up_params, bind_no_parameters in Hmsg.
      cbn in Hmsg. by case_decide.
Qed.

Lemma held_upto_S ds c n :
  held_upto ds c (S n) =
  held_upto ds c n ++ replicate (steps (nth n ds 0%float)) (c n).
Proof.
  unfold held_upto. rewrite seq_S, map_app, concat_app. cbn.
  by rewrite app_nil_r.
Qed.

Lemma length_held_upto ds c n :
  n ≤ length ds →
  length (held_upto ds c n) = sum_list_with steps (take n ds).
Proof.
  induction n as [|n IH]; intros Hn; [done|].
  destruct (lookup_lt_is_Some_2 ds n) as [d Hd]; [lia|].
  rewrite held_upto_S, length_app, length_replicate, IH by lia.
  rewrite (take_S_r _ _ _ Hd), sum_list_with_app. cbn.
  rewrite (nth_lookup_Some _ _ _ _ Hd). lia.
Qed.

(** Writing the coefficient of segment [n] over its steps. *)
Lemma raster_upto_S ds c n n_t :
  length (held_upto ds c (S n)) ≤ n_t →
  let a := length (held_upto ds c n) in
  let k := steps (nth n ds 0%float) in
  take a (raster_upto ds c n n_t) ++ replicate k (c n) ++
    drop (a + k) (raster_upto ds c n n_t) =
  raster_upto ds c (S n) n_t.
Proof.
  intros Hfit. cbn zeta. unfold raster_upto.
  rewrite held_upto_S in Hfit |- *.
  rewrite length_app, length_replicate in Hfit |- *.
  rewrite take_app_length, drop_app_add, drop_replicate.
  rewrite <- app_assoc. do 3 f_equal. lia.
Qed.

Lemma sum_list_with_take_le {A} (f : A → nat) (l : list A) n :
  sum_list_with f (take n l) ≤ sum_list_with f l.
Proof.
  rewrite <- (take_drop n l) at 2. rewrite sum_list_with_app. lia.
Qed.

(** Inside the steps of segment [n] the raster holds its coefficient. *)
Lemma held_upto_lookup ds c k n i :
  n < k → k ≤ length ds →
  sum_list_with steps (take n ds) ≤ i < sum_list_with steps (take (S n) ds) →
  held_upto ds c k !! i = Some (c n).
Proof.
  intros Hn. induction k as [|k IH]; intros Hk Hi; [lia|].
  rewrite held_upto_S.
  destruct (decide (n = k)) as [->|Hne].
  - rewrite lookup_app_r; rewrite length_held_upto by lia; [|lia].
    apply lookup_replicate_2.
    destruct (lookup_lt_is_Some_2 ds k) as [d Hd]; [lia|].
    rewrite (take_S_r _ _ _ Hd), sum_list_with_app in Hi. cbn in Hi.
    rewrite (nth_lookup_Some _ _ _ _ Hd). lia.
  - rewrite lookup_app_l; [apply IH; lia|].
    rewrite length_held_upto by lia.
    pose proof (sum_list_with_take_le steps (take k ds) (S n)) as Hle.
    rewrite take_take, Nat.min_l in Hle by lia. lia.
Qed.

Lemma length_raster_upto ds c n n_t :
  length (held_upto ds c n) ≤ n_t → length (raster_upto ds c n n_t) = n_t.
Proof.
  intros Hfit. unfold raster_upto. rewrite length_app, length_replicate. lia.
Qed.

Lemma steps_Z d :
  rasterable d → F64.int_floor (d / dt)%float = Return (Z.of_nat (steps d)).
Proof.
  intros (k & Hk & Hpos). unfold steps. rewrite Hk. by rewrite Z2Nat.id.
Qed.

Lemma ones_steps k : Np.ones (Z.of_nat k) = Return (replicate k 1%R).
Proof. unfold Np.ones. case_decide; [lia|]. by rewrite Nat2Z.id. Qed.

Lemma scale_ones k c : Np.scale (replicate k 1%R) c = replicate k c.
Proof.
  unfold Np.scale. change map with (@fmap list _). rewrite fmap_replicate.
  f_equal. ring.
Qed.

(** The loops of [pulse_matrix], for a raster of [n_t] steps that is wide
    enough and a coefficient table [H_u] that is read inside its range;
    [c m n] is the coefficient of control [m] in segment [n]. *)
Section Raster.

Variables (H_u : Np.ndarray2) (ds : list float) (n_ops n_t : nat).
Variable c : nat → nat → R.
Variable sh : nat * nat.

Hypothesis H_get :
  ∀ n m, n < length ds → m < n_ops → Np.get H_u n m = Return (c m n).
Hypothesis H_rasterable : Forall rasterable ds.
Hypothesis H_fit : sum_list_with steps ds ≤ n_t.

Local Abbreviation start n := (sum_list_with steps (take n ds)).
Local Abbreviation raster n := (λ m, raster_upto ds (c m) n n_t).

Lemma segment_rasterable n : n < length ds → rasterable (nth n ds 0%float).
Proof.
  intros Hn. destruct (lookup_lt_is_Some_2 ds n Hn) as [d Hd].
  rewrite (nth_lookup_Some _ _ _ _ Hd).
  exact (proj1 (Forall_lookup _ _) H_rasterable n d Hd).
Qed.

Lemma start_S n :
  n < length ds → start (S n) = start n + steps (nth n ds 0%float).
Proof.
  intros Hn. destruct (lookup_lt_is_Some_2 ds n Hn) as [d Hd].
  rewrite (take_S_r _ _ _ Hd), sum_list_with_app, (nth_lookup_Some _ _ _ _ Hd).
  cbn. lia.
Qed.

Lemma start_fits n : start n ≤ n_t.
Proof. pose proof (sum_list_with_take_le steps ds n). lia. Qed.

(** One pass of the inner loop writes the row of control [m]. *)
Lemma fill_row_raster n m (rows : list (list R)) :
  n < length ds → m < n_ops →
  rows !! m = Some (raster n m) →
  fill_row H_u n (Z.of_nat (start n)) (Z.of_nat (steps (nth n ds 0%float))) m
    (Np.Array2 sh rows, m) =
  Return (Np.Array2 sh (<[m := raster (S n) m]> rows), S m).
Proof.
  intros Hn Hm Hrow.
  pose proof (start_fits (S n)) as Hfit. rewrite start_S in Hfit by done.
  unfold fill_row. rewrite ones_steps, (H_get n m Hn Hm). cbn.
  rewrite scale_ones. unfold Np.set_row_slice. cbn. rewrite Hrow.
  rewrite set_slice_fits.
  - cbn. rewrite <- (length_held_upto ds (c m) n) by lia.
    rewrite raster_upto_S; [done|].
    rewrite length_held_upto, start_S by lia. lia.
  - rewrite length_raster_upto; [lia|].
    rewrite length_held_upto by lia. apply start_fits.
  - apply length_replicate.
Qed.

(** The inner loop, from control [m0] on: the rows before [m0] are
    written, the others are not yet. *)
Lemma fill_rows_raster n cnt m0 :
  n < length ds → m0 + cnt = n_ops →
  for_each (seq m0 cnt)
    (fill_row H_u n (Z.of_nat (start n)) (Z.of_nat (steps (nth n ds 0%float))))
    (Np.Array2 sh ((raster (S n) <$> seq 0 m0) ++ (raster n <$> seq m0 cnt)), m0) =
  Return (Np.Array2 sh (raster (S n) <$> seq 0 n_ops), n_ops).
Proof.
  intros Hn. revert m0. induction cnt as [|cnt IH]; intros m0 Hm.
  - cbn. rewrite app_nil_r. by replace m0 with n_ops by lia.
  - cbn [seq for_each].
    rewrite (fill_row_raster n m0); [|done|lia|]; last first.
    { rewrite lookup_app_r; rewrite length_fmap, length_seq; [|lia].
      by rewrite Nat.sub_diag. }
    cbn. rewrite insert_app_r_alt; rewrite length_fmap, length_seq; [|lia].
    rewrite Nat.sub_diag. cbn.
    rewrite <- (IH (S m0)) by lia.
    by rewrite seq_S, fmap_app, <- app_assoc.
Qed.

(** One pass of the outer loop writes segment [n] in every row. *)
Lemma fill_segment_raster n :
  n < length ds →
  fill_segment H_u n_ops ds n
    (Np.Array2 sh (raster n <$> seq 0 n_ops), Z.of_nat (start n)) =
  Return (Np.Array2 sh (raster (S n) <$> seq 0 n_ops), Z.of_nat (start (S n))).
Proof.
  intros Hn. unfold fill_segment.
  rewrite (steps_Z _ (segment_rasterable n Hn)). cbn [mbind result_bind].
  set (inner := for_each _ _ _).
  assert (inner = Return (Np.Array2 sh (raster (S n) <$> seq 0 n_ops), n_ops))
    as -> by exact (fill_rows_raster n n_ops 0 Hn eq_refl).
  cbn.
  by rewrite start_S, Nat2Z.inj_add.
Qed.

(** The outer loop after [k] passes. *)
Lemma fill_segments_raster k :
  k ≤ length ds →
  for_each (seq 0 k) (fill_segment H_u n_ops ds)
    (Np.Array2 sh (raster 0 <$> seq 0 n_ops), 0%Z) =
  Return (Np.Array2 sh (raster k <$> seq 0 n_ops), Z.of_nat (start k)).
Proof.
  induction k as [|k IH]; intros Hk; [done|].
  rewrite seq_S, for_each_app, IH by lia.
  cbn [for_each mbind result_bind Nat.add].
  rewrite fill_segment_raster by lia. done.
Qed.

End Raster.

Lemma zeros_raster (ds : list float) (c : nat → nat → R) n_ops n_t :
  replicate n_ops (replicate n_t 0%R) =
  (λ m, raster_upto ds (c m) 0 n_t) <$> seq 0 n_ops.
Proof.
  apply list_eq. intros i. rewrite list_lookup_fmap.
  destruct (decide (i < n_ops)) as [Hi|Hi].
  - rewrite lookup_replicate_2, lookup_seq_lt by done. cbn.
    unfold raster_upto, held_upto. cbn. by rewrite Nat.sub_0_r.
  - rewrite lookup_seq_ge by lia. by apply lookup_replicate_None; lia.
Qed.

Lemma length_linspace start stop (n : nat) t :
  Np.linspace start stop (Z.of_nat n) = Return t → length t = n.
Proof.
  unfold Np.linspace. case_decide; [lia|]. intros [= <-].
  by rewrite length_map, length_seq, Nat2Z.id.
Qed.

(** The step counts of the one-second example, as the floats give them:
    [1.0 / 0.01] is [100.0]. *)
Lemma one_second_steps : steps (1 - 0)%float = 100.
Proof. vm_compute. reflexivity. Qed.

Lemma one_second_columns : columns [(1 - 0)%float] = 100.
Proof. vm_compute. reflexivity. Qed.

Lemma one_segment_loaded : schedule_loaded one_segment_processor.
Proof.
  unfold schedule_loaded, Np.wf. cbn zeta.
  change (diff (tlist one_segment_processor)) with [(1 - 0)%float].
  split_and!.
  - done.
  - by repeat constructor.
  - done.
  - cbn. lia.
  - repeat constructor. exists 100%Z. split; [vm_compute; reflexivity|lia].
  - vm_compute. reflexivity.
  - cbn [sum_list_with]. rewrite one_second_steps, one_second_columns. lia.
Qed.

(** A segment of duration [0.35]: the quotient [0.35 / 0.01] is the
    float [35.0], although the float [0.35] is less than thirty-five
    times the float [0.01]. *)
Lemma steps_035 : sum_list_with steps (diff [0; f0_35]%float) = 35.
Proof. vm_compute. reflexivity. Qed.

(** C7, as stated: for the timeline [[0, 0.35]] the code holds the
    coefficient over 35 raster steps, and 35 steps of [0.01] are more
    than the duration of the schedule: the sum of the rastered widths
    exceeds it. *)
Lemma widths_exceed_duration :
  sum_list_with steps (diff [0; f0_35]%float) = 35 ∧
  ¬ widths_within_duration (diff [0; f0_35]%float).
Proof.
  split; [exact steps_035|].
  unfold widths_within_duration. rewrite steps_035. intros Hle.
  apply Qle_bool_iff in Hle. vm_compute in Hle. discriminate Hle.
Qed.

(** The raster that [pulse_matrix] returns for a loaded schedule. *)
Lemma pulse_matrix_loaded {Qobj} (self : ModelProcessor.t Qobj) :
  schedule_loaded self →
  let ds := diff (tlist self) in
  let n_ops := length (ctrls self) in
  let n_t := columns ds in
  ∃ t,
    pulse_matrix self =
    Return (t, Np.Array2 (n_ops, n_t)
                 ((λ m, raster_row ds (nth m (Np.data (coeffs self)) []) n_t)
                    <$> seq 0 n_ops)).
Proof.
  intros (Hwf & Hrows & Hcols & Hds & Hceil & Hfit) ds n_ops n_t.
  fold ds in Hcols, Hds, Hceil, Hfit. fold n_t in Hceil, Hfit.
  set (c := λ m n, nth n (nth m (Np.data (coeffs self)) []) 0%R).
  assert (∀ n m, n < length ds → m < n_ops →
            Np.get (Np.T (coeffs self)) n m = Return (c m n)) as Hget.
  { intros n m Hn Hm. unfold n_ops in Hm. apply get_T; [done|lia..]. }
  destruct (Np.linspace 0 (sum ds) (Z.of_nat n_t)) as [t|e] eqn:Ht; last first.
  { unfold Np.linspace in Ht. by rewrite decide_False in Ht by lia. }
  exists t.
  unfold pulse_matrix, get_ops_and_u. fold ds n_ops. cbn zeta.
  rewrite Hceil. cbn [mbind result_bind]. rewrite Ht.
  unfold Np.zeros. rewrite decide_False by lia. rewrite Nat2Z.id.
  cbn [mbind result_bind].
  rewrite (zeros_raster ds c).
  rewrite (fill_segments_raster _ ds n_ops n_t c _ Hget Hds Hfit) by done.
  reflexivity.
Qed.

(** C7, amended: for a loaded schedule [pulse_matrix] returns a raster
    of [ceil(total / 0.01)] steps for each control, in which each segment
    in order holds the coefficient of the control over
    [floor(duration / 0.01)] steps, the quotient being the float that the
    code computes, and the steps left over are zero, so that within the
    steps of a segment the raster of a control reads the coefficient of
    that control in that segment. In particular one segment of duration
    1 with coefficient 5 gives a raster of 100 entries, all equal to
    5. *)
Theorem pulse_matrix_raster {Qobj} (self : ModelProcessor.t Qobj) :
  schedule_loaded self →
  let ds := diff (tlist self) in
  let n_ops := length (ctrls self) in
  let n_t := columns ds in
  ∃ t u,
    pulse_matrix self = Return (t, u) ∧
    length t = n_t ∧
    u = Np.Array2 (n_ops, n_t)
          ((λ m, raster_row ds (nth m (Np.data (coeffs self)) []) n_t)
             <$> seq 0 n_ops) ∧
    (∀ m n k, m < n_ops → n < length ds →
       sum_list_with steps (take n ds) ≤ k < sum_list_with steps (take (S n) ds) →
       Np.get u m k = Np.get (coeffs self) m n) ∧
    (tlist self = [0; 1]%float → Np.data (coeffs self) = [[5%R]] →
     u = Np.Array2 (1, 100) [replicate 100 5%R]).
Proof.
  intros Hloaded ds n_ops n_t.
  destruct (pulse_matrix_loaded self Hloaded) as (t & Hrun).
  fold ds n_ops n_t in Hrun.
  destruct Hloaded as (Hwf & Hrows & Hcols & Hds & Hceil & Hfit).
  fold ds in Hcols, Hds, Hceil, Hfit. fold n_t in Hceil, Hfit.
  set (c := λ m n, nth n (nth m (Np.data (coeffs self)) []) 0%R).
  assert (Np.linspace 0 (sum ds) (Z.of_nat n_t) = Return t) as Ht.
  { unfold pulse_matrix, get_ops_and_u in Hrun. fold ds in Hrun. cbn zeta in Hrun.
    rewrite Hceil in Hrun. cbn [mbind result_bind] in Hrun.
    destruct (Np.linspace _ _ _) as [t'|e]; [|done].
    cbn [mbind result_bind] in Hrun.
    destruct (Np.zeros _ _) as [u0|e]; [|done]. cbn [mbind result_bind] in Hrun.
    destruct (for_each _ _ _) as [[u1 t_end]|e]; [|done].
    cbn in Hrun. by injection Hrun as -> _. }
  exists t. eexists. split_and!.
  - exact Hrun.
  - by eapply length_linspace.
  - reflexivity.
  - intros m n k Hm Hn Hk.
    pose proof (sum_list_with_take_le steps ds (S n)) as Hle.
    unfold n_ops in Hm.
    unfold Np.get. cbn [Np.shape Np.data fst snd].
    rewrite !decide_True by (fold n_ops; lia). f_equal.
    erewrite (nth_lookup_Some _ m); last first.
    { rewrite list_lookup_fmap, lookup_seq_lt by done. done. }
    apply nth_lookup_Some. unfold raster_row, raster_upto.
    rewrite lookup_app_l.
    + by apply (held_upto_lookup ds (c m)).
    + rewrite length_held_upto by done. rewrite firstn_all. lia.
  - intros Htl Hdata.
    assert (n_ops = 1) as ->.
    { unfold n_ops. rewrite <- Hrows. destruct Hwf as [<- _]. by rewrite Hdata. }
    assert (ds = [(1 - 0)%float]) as Hone by (unfold ds; by rewrite Htl).
    assert (n_t = 100) as ->.
    { unfold n_t. rewrite Hone. exact one_second_columns. }
    rewrite Hone, Hdata.
    cbn [length seq fmap list_fmap].
    unfold raster_row, raster_upto, held_upto.
    cbn [length seq map concat nth]. rewrite one_second_steps.
    reflexivity.
Qed.

Lemma pulse_matrix_raster_witness :
  ∃ t u,
    pulse_matrix one_segment_processor = Return (t, u) ∧
    length t = 100 ∧
    u = Np.Array2 (1, 100) [replicate 100 5%R].
Proof.
  destruct (pulse_matrix_raster one_segment_processor one_segment_loaded)
    as (t & u & Hrun & Hlen & _ & _ & Hu).
  exists t, u. split_and!; [done| |by apply Hu].
  rewrite Hlen. exact one_second_columns.
Defined.

End ModelProcessorFacts.

(** ** Further properties of GateDecomposer *)

Module GateDecomposerMore.

Import GateDecomposer Spec NpFacts GateDecomposerFacts.

(** The object that [decompose] leaves when every gate is registered. *)
Local Abbreviation after self gates :=
  (GateDecomposer.mk (gate_decomps self) (GateDecomposer.N self) (num_ops self)
     (appended_durations (gate_decomps self) gates)
     (appended_rows (gate_decomps self) gates)).

Lemma vstack_stackable r rs :
  Forall (λ r', length r' = length r) rs →
  Np.vstack (r :: rs) = Return (Np.Array2 (S (length rs), length r) (r :: rs)).
Proof.
  intros Hall. cbn.
  replace (forallb _ rs) with true; [done|].
  symmetry. apply forallb_forall. intros r' Hr'. apply Nat.eqb_eq.
  apply (proj1 (Forall_forall _ _) Hall). by apply list_elem_of_In.
Qed.

Lemma vstack_ragged r rs :
  ¬ Forall (λ r', length r' = length r) rs →
  Np.vstack (r :: rs) =
  Raise (ValueError "all the input array dimensions except for the concatenation axis must match exactly").
Proof.
  intros Hnot. cbn.
  destruct (forallb _ rs) eqn:Hall; [|done].
  destruct Hnot. apply Forall_forall. intros r' Hr'.
  apply Nat.eqb_eq. apply (proj1 (forallb_forall _ _) Hall).
  by apply list_elem_of_In.
Qed.

(** [decompose] when every gate is registered: only the stacking can
    fail. *)
Lemma decompose_registered gates self :
  Forall (registered (gate_decomps self)) gates →
  decompose gates self =
  match Np.vstack (appended_rows (gate_decomps self) gates) with
  | Return stacked =>
      (Return (0%R :: cumulative_sums (appended_durations (gate_decomps self) gates),
               Np.T stacked), after self gates)
  | Raise e => (Raise e, after self gates)
  end.
Proof.
  intros Hall. rewrite decompose_unfold.
  rewrite (for_gates_registered gates (cleared self)) by done.
  cbn [cleared gate_decomps GateDecomposer.N num_ops dt_list coeff_list app].
  rewrite tlist_loop_cumulative. reflexivity.
Qed.

(** [decompose] returns exactly when every gate is registered and the
    rows appended for the gates can be stacked: there is at least one and
    all have the same length. *)
Theorem decompose_returns_iff gates self :
  is_Return (fst (decompose gates self)) = true ↔
  Forall (registered (gate_decomps self)) gates ∧
  stackable (appended_rows (gate_decomps self) gates).
Proof.
  destruct (first_unregistered (gate_decomps self) gates)
    as [Hall|(pre & g & post & -> & Hpre & Hg)].
  - rewrite decompose_registered by done. split.
    + destruct (Np.vstack _) as [a|e] eqn:Hst; [|done]. intros _.
      apply vstack_Return in Hst as (r & rs & Hrows & _ & Hlen).
      split; [done|]. exists r, rs. split; [done|].
      rewrite Hrows in Hlen. by apply Forall_cons in Hlen as [_ Hlen].
    + intros [_ (r & rs & -> & Hlen)]. by rewrite vstack_stackable.
  - rewrite decompose_unfold.
    rewrite (for_gates_unregistered pre g post (cleared self)) by done.
    split; [done|]. intros [Hall _].
    apply Forall_app in Hall as [_ Hall].
    apply Forall_cons in Hall as [[f Hf] _]. congruence.
Qed.

(** Registered gates that append no row at all, such as a sequence of
    gates that only change the global phase, make [decompose] raise the
    [ValueError] of stacking an empty list, after the durations have been
    accumulated. *)
Theorem decompose_no_rows gates self :
  Forall (registered (gate_decomps self)) gates →
  appended_rows (gate_decomps self) gates = [] →
  decompose gates self =
  (Raise (ValueError "need at least one array to concatenate"),
   GateDecomposer.mk (gate_decomps self) (GateDecomposer.N self) (num_ops self)
     (appended_durations (gate_decomps self) gates) []).
Proof.
  intros Hall Hrows. rewrite decompose_registered by done.
  by rewrite Hrows.
Qed.

Lemma phase_registered : registered (gate_decomps phase_decomposer) phase_gate.
Proof. exists phase_fragment. apply lookup_singleton_eq. Qed.

Lemma phase_fragment_of :
  fragment_of (gate_decomps phase_decomposer) phase_gate = phase_fragment phase_gate.
Proof. apply fragment_of_registered, lookup_singleton_eq. Qed.

Lemma decompose_no_rows_witness :
  decompose [phase_gate; phase_gate] phase_decomposer =
  (Raise (ValueError "need at least one array to concatenate"),
   GateDecomposer.mk (gate_decomps phase_decomposer) 1 2
     (appended_durations (gate_decomps phase_decomposer) [phase_gate; phase_gate]) []).
Proof.
  apply (decompose_no_rows [phase_gate; phase_gate] phase_decomposer).
  - repeat constructor; apply phase_registered.
  - unfold appended_rows. rewrite !bind_cons, phase_fragment_of. reflexivity.
Defined.

(** Registered gates whose rows do not all have the length of the first
    one make [decompose] raise the [ValueError] of stacking rows of
    different lengths. *)
Theorem decompose_ragged_rows gates self r rs :
  Forall (registered (gate_decomps self)) gates →
  appended_rows (gate_decomps self) gates = r :: rs →
  ¬ Forall (λ r', length r' = length r) rs →
  fst (decompose gates self) =
  Raise (ValueError "all the input array dimensions except for the concatenation axis must match exactly").
Proof.
  intros Hall Hrows Hnot. rewrite decompose_registered by done.
  by rewrite Hrows, vstack_ragged.
Qed.

Lemma XZ_X_lookup : gate_decomps XZ_decomposer !! name X_gate = Some X_fragment.
Proof. cbn. rewrite lookup_insert_ne by done. apply lookup_singleton_eq. Qed.

Lemma XZ_Z_lookup : gate_decomps XZ_decomposer !! name Z_gate = Some Z_fragment.
Proof. cbn. apply lookup_insert_eq. Qed.

Lemma decompose_ragged_rows_witness :
  fst (decompose [X_gate; Z_gate] XZ_decomposer) =
  Raise (ValueError "all the input array dimensions except for the concatenation axis must match exactly").
Proof.
  apply (decompose_ragged_rows [X_gate; Z_gate] XZ_decomposer [3; 0]%R [[1%R]]).
  - repeat constructor; [exists X_fragment; apply XZ_X_lookup
                        |exists Z_fragment; apply XZ_Z_lookup].
  - unfold appended_rows.
    rewrite !bind_cons, (fragment_of_registered _ _ _ XZ_X_lookup),
      (fragment_of_registered _ _ _ XZ_Z_lookup).
    reflexivity.
  - intros Hall. apply Forall_cons in Hall as [Hlen _]. cbn in Hlen. lia.
Defined.

(** What a successful [decompose] has done. *)
Lemma decompose_Return gates self tl cs self' :
  decompose gates self = (Return (tl, cs), self') →
  Forall (registered (gate_decomps self)) gates ∧
  self' = after self gates ∧
  tl = 0%R :: cumulative_sums (dt_list self') ∧
  ∃ r rs, coeff_list self' = r :: rs ∧
    Forall (λ r', length r' = length r) rs ∧
    cs = Np.T (Np.Array2 (S (length rs), length r) (r :: rs)).
Proof.
  destruct (first_unregistered (gate_decomps self) gates)
    as [Hall|(pre & g & post & -> & Hpre & Hg)]; last first.
  { rewrite decompose_unfold.
    by rewrite (for_gates_unregistered pre g post (cleared self)). }
  rewrite decompose_registered by done.
  destruct (Np.vstack _) as [a|e] eqn:Hst; [|done].
  intros [= <- <- <-].
  apply vstack_Return in Hst as (r & rs & Hrows & -> & Hlen).
  split_and!; [done..|]. exists r, rs. cbn [coeff_list].
  rewrite Hrows in Hlen |- *. apply Forall_cons in Hlen as [_ Hlen].
  done.
Qed.

Lemma cumulative_sums_cons d ds :
  cumulative_sums (d :: ds) = d :: map (λ x, d + x)%R (cumulative_sums ds).
Proof.
  unfold cumulative_sums. cbn [length seq map take]. f_equal.
  - rewrite take_0. unfold total. cbn. lra.
  - rewrite <- seq_shift, !map_map. apply map_ext. intros k. reflexivity.
Qed.

Lemma breakpoints_cumulative t ds :
  breakpoints_from t ds = t :: map (λ x, t + x)%R (cumulative_sums ds).
Proof.
  revert t. induction ds as [|d ds IH]; intros t; [done|].
  cbn [breakpoints_from]. rewrite IH, cumulative_sums_cons. cbn [map].
  do 2 f_equal. rewrite map_map. apply map_ext. intros x. lra.
Qed.

Lemma breakpoints_zero ds : 0%R :: cumulative_sums ds = breakpoints_from 0 ds.
Proof.
  rewrite breakpoints_cumulative. f_equal.
  rewrite <- (map_id (cumulative_sums ds)) at 1.
  apply map_ext. intros x. lra.
Qed.



Lemma breakpoints_last t ds :
  last (breakpoints_from t ds) = Some (t + total ds)%R.
Proof.
  revert t. induction ds as [|d ds IH]; intros t.
  - cbn. f_equal. unfold total. cbn. lra.
  - cbn [breakpoints_from]. rewrite last_cons, IH. cbn.
    f_equal. unfold total. cbn. lra.
Qed.

(** The running sums over two lists of durations: those over the
    second list continue from the last of those over the first. *)
Lemma breakpoints_app t xs ys :
  breakpoints_from t (xs ++ ys) =
  breakpoints_from t xs ++
  drop 1 (breakpoints_from (default t (last (breakpoints_from t xs))) ys).
Proof.
  revert t. induction xs as [|x xs IH]; intros t.
  - cbn. by destruct ys.
  - cbn [app breakpoints_from]. rewrite IH, last_cons.
    by rewrite breakpoints_last.
Qed.



Lemma decompose_X :
  decompose [X_gate] X_decomposer =
  (Return ([0; 1]%R, Np.Array2 (2, 1) [[3]; [0]]%R),
   GateDecomposer.mk {[ "X" := X_fragment ]} 1 2 [1%R] [[3; 0]%R]).
Proof.
  rewrite decompose_registered by (repeat constructor; apply X_registered).
  unfold appended_rows, appended_durations.
  destruct X_registered as [f Hf].
  rewrite !bind_cons, (fragment_of_registered _ _ _ Hf).
  assert (f = X_fragment) as ->.
  { cbn in Hf. rewrite lookup_singleton_eq in Hf. congruence. }
  cbn. repeat f_equal; lra.
Qed.

(** Decomposing the concatenation of two gate sequences that decompose
    separately, with coefficient matrices of the same number of rows:
    the columns of the second matrix follow those of the first, the
    breakpoints of the first are followed by the running sums of the
    durations of the second, continued from the last breakpoint of the
    first, and the accumulators hold the entries of both in order. *)
Theorem decompose_app gates1 gates2 self tl1 cs1 self1 tl2 cs2 self2 :
  decompose gates1 self = (Return (tl1, cs1), self1) →
  decompose gates2 self = (Return (tl2, cs2), self2) →
  fst (Np.shape cs1) = fst (Np.shape cs2) →
  decompose (gates1 ++ gates2) self =
  (Return (tl1 ++ drop 1 (breakpoints_from (default 0%R (last tl1)) (dt_list self2)),
           Np.Array2 (fst (Np.shape cs1), snd (Np.shape cs1) + snd (Np.shape cs2))
                     (zip_with app (Np.data cs1) (Np.data cs2))),
   GateDecomposer.mk (gate_decomps self) (GateDecomposer.N self) (num_ops self)
     (dt_list self1 ++ dt_list self2) (coeff_list self1 ++ coeff_list self2)).
Proof.
  intros (Hall1 & -> & -> & r1 & rs1 & Hr1 & Hlen1 & ->)%decompose_Return
         (Hall2 & -> & -> & r2 & rs2 & Hr2 & Hlen2 & ->)%decompose_Return Hsh.
  cbn [coeff_list dt_list Np.T Np.shape fst snd] in *.
  rewrite decompose_registered by (by apply Forall_app).
  unfold appended_rows, appended_durations in *. rewrite !bind_app, Hr1, Hr2.
  cbn [app]. rewrite vstack_stackable; last first.
  { apply Forall_app. split; [exact Hlen1|].
    constructor; [done|].
    eapply Forall_impl; [exact Hlen2|]. cbn. intros r' Hr'. congruence. }
  match goal with
  | |- context [cumulative_sums (?d1 ++ ?d2)] =>
      assert (0%R :: cumulative_sums (d1 ++ d2) =
              (0%R :: cumulative_sums d1) ++
              drop 1 (breakpoints_from
                        (default 0%R (last (0%R :: cumulative_sums d1))) d2))
        as -> by (rewrite !breakpoints_zero; apply breakpoints_app)
  end.
  set (stacked := Np.T (Np.Array2 _ (r1 :: rs1 ++ r2 :: rs2))).
  assert (stacked =
          Np.Array2 (length r1, S (length rs1) + S (length rs2))
            (zip_with app (Np.data (Np.T (Np.Array2 (S (length rs1), length r1) (r1 :: rs1))))
                          (Np.data (Np.T (Np.Array2 (S (length rs2), length r2) (r2 :: rs2))))))
    as ->; [|reflexivity].
  unfold stacked, Np.T. cbn [Np.shape Np.data fst snd].
  rewrite length_app. cbn [length]. rewrite <- Hsh.
  replace (S (length rs1 + S (length rs2))) with (S (length rs1) + S (length rs2)) by lia.
  apply (f_equal (Np.Array2 _)).
  change (r1 :: rs1 ++ r2 :: rs2) with ((r1 :: rs1) ++ (r2 :: rs2)).
  induction (seq 0 (length r1)) as [|j js IH]; [done|].
  cbn [map zip_with]. by rewrite IH, map_app.
Qed.

Lemma decompose_app_witness :
  decompose ([X_gate] ++ [X_gate]) X_decomposer =
  (Return ([0; 1]%R ++ drop 1 (breakpoints_from (default 0%R (last [0; 1]%R)) [1%R]),
           Np.Array2 (2, 1 + 1) (zip_with app [[3]; [0]]%R [[3]; [0]]%R)),
   GateDecomposer.mk {[ "X" := X_fragment ]} 1 2
     ([1%R] ++ [1%R]) ([[3; 0]%R] ++ [[3; 0]%R])).
Proof.
  exact (decompose_app [X_gate] [X_gate] X_decomposer _ _ _ _ _ _
           decompose_X decompose_X eq_refl).
Defined.

Lemma appended_rows_elem reg gates row :
  row ∈ appended_rows reg gates →
  ∃ gate f, reg !! name gate = Some f ∧ row ∈ rows (f gate).
Proof.
  unfold appended_rows. intros (gate & Hrow & _)%list_elem_of_bind.
  unfold fragment_of in Hrow.
  destruct (reg !! name gate) as [f|] eqn:Hf; [by exists gate, f|].
  by apply elem_of_nil in Hrow.
Qed.

(** When every registered function appends rows of [num_ops] entries,
    the returned coefficient matrix is a well-formed array of shape
    [(num_ops, segments)], one column for each accumulated row. *)
Theorem decompose_shape gates self tl cs self' :
  rows_have_num_ops self →
  decompose gates self = (Return (tl, cs), self') →
  Np.wf cs ∧ Np.shape cs = (num_ops self, length (coeff_list self')).
Proof.
  intros Hrows (_ & -> & _ & r & rs & Hr & Hlen & ->)%decompose_Return.
  cbn [coeff_list] in *. rewrite Hr.
  assert (length r = num_ops self) as Hn.
  { destruct (appended_rows_elem (gate_decomps self) gates r)
      as (gate & f & Hf & Hin); [rewrite Hr; by left|].
    by apply (Hrows _ _ _ _ Hf Hin). }
  split; [|by rewrite <- Hn].
  unfold Np.wf, Np.T. cbn [Np.shape Np.data fst snd]. split.
  - by rewrite length_map, length_seq.
  - apply Forall_forall. intros row (j & -> & _)%list_elem_of_fmap.
    by rewrite length_map.
Qed.

Lemma decompose_shape_witness :
  Np.wf (Np.Array2 (2, 2) [[3; 3]; [0; 0]]%R) ∧
  Np.shape (Np.Array2 (2, 2) [[3; 3]; [0; 0]]%R) =
    (num_ops X_decomposer, length [[3; 0]; [3; 0]]%R).
Proof.
  refine (decompose_shape [X_gate; X_gate] X_decomposer _ _ _ _ decompose_XX).
  intros nm f gate row Hf Hrow. cbn in Hf.
  apply lookup_singleton_Some in Hf as [_ <-].
  cbn in Hrow. by apply list_elem_of_singleton in Hrow as ->.
Defined.

(** [decompose] does not compare the two accumulators: the breakpoints
    follow the durations and the columns follow the rows, so a returned
    timeline has one breakpoint more than columns exactly when as many
    durations as rows were appended. *)
Theorem decompose_lengths gates self tl cs self' :
  decompose gates self = (Return (tl, cs), self') →
  length tl = S (length (dt_list self')) ∧
  snd (Np.shape cs) = length (coeff_list self') ∧
  (length tl = snd (Np.shape cs) + 1 ↔
   length (dt_list self') = length (coeff_list self')).
Proof.
  intros (_ & -> & -> & r & rs & Hr & _ & ->)%decompose_Return.
  cbn [dt_list coeff_list Np.T Np.shape snd fst length] in *.
  rewrite length_cumulative_sums, Hr. cbn [length]. split_and!; [done..|lia].
Qed.

Lemma decompose_lengths_witness :
  length [0; 1; 2]%R = S (length [1; 1]%R) ∧
  snd (Np.shape (Np.Array2 (2, 2) [[3; 3]; [0; 0]]%R)) = length [[3; 0]; [3; 0]]%R ∧
  (length [0; 1; 2]%R = snd (Np.shape (Np.Array2 (2, 2) [[3; 3]; [0; 0]]%R)) + 1 ↔
   length [1; 1]%R = length [[3; 0]; [3; 0]]%R).
Proof.
  exact (decompose_lengths [X_gate; X_gate] X_decomposer _ _ _ decompose_XX).
Defined.

(** A decomposer as [__init__] leaves it, with an empty registry,
    decomposes nothing: every call raises, a non-empty sequence for its
    first gate, and the accumulators stay empty. *)
Theorem base_decomposer_raises N num_ops :
  decompose [] (__init__ N num_ops) =
    (Raise (ValueError "need at least one array to concatenate"),
     __init__ N num_ops) ∧
  ∀ gate gates,
    decompose (gate :: gates) (__init__ N num_ops) =
    (Raise (ValueError ("Unsupported gate " ++ name gate)), __init__ N num_ops).
Proof.
  split; [by rewrite decompose_unfold|].
  intros gate gates. rewrite decompose_unfold.
  change (gate :: gates) with ([] ++ gate :: gates).
  by rewrite (for_gates_unregistered [] gate gates (cleared (__init__ N num_ops))).
Qed.

End GateDecomposerMore.

(** ** Further properties of ModelProcessor *)

Module ModelProcessorMore.

Import GateDecomposer ModelProcessor Spec.
Import NpFacts GateDecomposerFacts ModelProcessorFacts GateDecomposerMore.

#[local] Arguments held_upto : simpl never.
#[local] Arguments raster_upto : simpl never.

Lemma comprehension_replicate {A B} (f : A → result B) c y n :
  f c = Return y → comprehension f (replicate n c) = Return (replicate n y).
Proof.
  intros Hc. induction n as [|n IH]; [done|].
  cbn. rewrite Hc. cbn. by rewrite IH.
Qed.

(** A scalar parameter whose product with [2 * np.pi] the code can
    compute gives what the list of [N] copies of it gives, and the empty
    list for a count that is zero or negative. The product is computed
    before it is repeated: an [int] beyond the floats raises the
    [OverflowError] of its conversion for every count, also for zero. *)
Theorem para_list_broadcast (p : number) (y : float) (N M : Z) :
  times_2pi p = Return y →
  _para_list (VNumber p) N = _para_list (VSeq (replicate (Z.to_nat N) p)) M ∧
  (∀ k : nat, _para_list (VNumber p) (- Z.of_nat k) = Return (VSeq [])) ∧
  (∀ z e, F64.float_of_int (z * 2) = Raise e →
          _para_list (VNumber (Int z)) 0 = Raise e).
Proof.
  intros Hp. split_and!.
  - cbn. rewrite Hp, (comprehension_replicate _ _ _ _ Hp). cbn.
    by rewrite fmap_replicate.
  - intros k. cbn. rewrite Hp. cbn.
    by replace (Z.to_nat (- Z.of_nat k)) with 0 by lia.
  - intros z e He. cbn. by rewrite He.
Qed.

Lemma para_list_broadcast_witness :
  _para_list (VNumber (Float 1.5)) 2 =
    _para_list (VSeq (replicate (Z.to_nat 2) (Float 1.5))) 5 ∧
  (∀ k : nat, _para_list (VNumber (Float 1.5)) (- Z.of_nat k) = Return (VSeq [])) ∧
  (∀ z e, F64.float_of_int (z * 2) = Raise e →
          _para_list (VNumber (Int z)) 0 = Raise e).
Proof.
  exact (para_list_broadcast (Float 1.5) (1.5 * 2 * F64.pi)%float 2 5 eq_refl).
Defined.

Lemma diff_short (tl : list float) : length tl ≤ 1 → diff tl = [].
Proof. destruct tl as [|x [|y tl]]; cbn; [done..|lia]. Qed.

Lemma int_ceil_zero : F64.int_ceil (sum [] / dt)%float = Return 0%Z.
Proof. vm_compute. reflexivity. Qed.

(** A timeline with at most one breakpoint has no segment: the call
    returns an empty time grid and a raster with a row without entries
    for each control, whatever the coefficient matrix is. *)
Theorem pulse_matrix_no_segment {Qobj} (self : ModelProcessor.t Qobj) :
  length (tlist self) ≤ 1 →
  pulse_matrix self =
  Return ([], Np.Array2 (length (ctrls self), 0)
                        (replicate (length (ctrls self)) [])).
Proof.
  intros Hshort. unfold pulse_matrix, get_ops_and_u.
  rewrite (diff_short _ Hshort), int_ceil_zero. reflexivity.
Qed.

Lemma pulse_matrix_no_segment_witness :
  pulse_matrix (processor_with 2 [0%float] (Np.Array2 (0, 0) [])) =
  Return ([], Np.Array2 (2, 0) [[]; []]).
Proof.
  apply (pulse_matrix_no_segment (processor_with 2 [0%float] (Np.Array2 (0, 0) []))).
  cbn. lia.
Defined.

(** A loop that returns has returned from the pass of each element. *)
Lemma for_each_Return_elem {X S} (xs : list X) (body : X → S → result S) s s' :
  for_each xs body s = Return s' →
  ∀ x, x ∈ xs → ∃ s0 s1, body x s0 = Return s1.
Proof.
  revert s. induction xs as [|x0 xs IH]; intros s Hrun x Hx.
  - by apply elem_of_nil in Hx.
  - cbn in Hrun. destruct (body x0 s) as [s1|e] eqn:Hbody; [|done].
    apply elem_of_cons in Hx as [->|Hx]; [by exists s, s1|].
    by apply (IH s1).
Qed.

(** A property that every returning pass keeps holds after the loop. *)
Lemma for_each_invariant {X S} (P : S → Prop) (xs : list X)
    (body : X → S → result S) s s' :
  (∀ x s0 s1, P s0 → body x s0 = Return s1 → P s1) →
  P s → for_each xs body s = Return s' → P s'.
Proof.
  intros Hkeep. revert s. induction xs as [|x0 xs IH]; intros s Hs Hrun.
  - cbn in Hrun. by injection Hrun as <-.
  - cbn in Hrun. destruct (body x0 s) as [s1|e] eqn:Hbody; [|done].
    apply (IH s1); [by eapply Hkeep|done].
Qed.

Lemma fill_row_Return H_u n t_start t_idx_len m s s' :
  fill_row H_u n t_start t_idx_len m s = Return s' →
  (0 ≤ t_idx_len)%Z ∧ n < fst (Np.shape H_u) ∧ m < snd (Np.shape H_u).
Proof.
  destruct s as [u mm]. unfold fill_row, Np.ones, Np.get.
  repeat case_decide; cbn; try done. intros _. lia.
Qed.

Lemma fill_segment_Return H_u n_ops ds n s s' m :
  fill_segment H_u n_ops ds n s = Return s' → m < n_ops →
  rasterable (nth n ds 0%float) ∧
  n < fst (Np.shape H_u) ∧ m < snd (Np.shape H_u).
Proof.
  destruct s as [u t_start]. unfold fill_segment, rasterable. intros Hrun Hm.
  destruct (F64.int_floor _) as [t_idx_len|e]; [|done]. cbn in Hrun.
  destruct (for_each (seq 0 n_ops) _ (u, 0)) as [inner|e] eqn:Hinner; [|done].
  destruct (for_each_Return_elem _ _ _ _ Hinner m) as (s0 & s1 & Hrow).
  { apply elem_of_seq. lia. }
  apply fill_row_Return in Hrow as (Hpos & Hn & Hm').
  split_and!; [by exists t_idx_len|done..].
Qed.

(** What a returning [pulse_matrix] has computed before its loops and
    that its outer loop has returned. *)
Lemma pulse_matrix_Return {Qobj} (self : ModelProcessor.t Qobj) t u :
  pulse_matrix self = Return (t, u) →
  let ds := diff (tlist self) in
  ∃ n_t,
    F64.int_ceil (sum ds / dt)%float = Return n_t ∧
    (0 ≤ n_t)%Z ∧
    Np.linspace 0 (sum ds) n_t = Return t ∧
    ∃ t_end,
      for_each (seq 0 (length ds))
        (fill_segment (Np.T (coeffs self)) (length (ctrls self)) ds)
        (Np.Array2 (length (ctrls self), Z.to_nat n_t)
           (replicate (length (ctrls self)) (replicate (Z.to_nat n_t) 0%R)), 0%Z) =
      Return (u, t_end).
Proof.
  unfold pulse_matrix, get_ops_and_u. cbn zeta.
  destruct (F64.int_ceil _) as [n_t|e]; [|done]. cbn [mbind result_bind].
  destruct (Np.linspace _ _ _) as [t'|e] eqn:Ht; [|done]. cbn [mbind result_bind].
  assert (0 ≤ n_t)%Z as Hn_t.
  { unfold Np.linspace in Ht. case_decide; [done|lia]. }
  unfold Np.zeros. rewrite decide_False by lia. cbn [mbind result_bind].
  destruct (for_each _ _ _) as [[u' t_end]|e] eqn:Hloop; [|done].
  cbn. intros [= <- <-]. exists n_t. split_and!; [done..|by exists t_end].
Qed.

(** With at least one control, [pulse_matrix] returns only for a
    schedule in which the code gets a number of raster steps for every
    segment, none of them negative, and every pair of a segment and a
    control lies inside the coefficient matrix: otherwise it raises. *)
Theorem pulse_matrix_returns_only_if {Qobj} (self : ModelProcessor.t Qobj) t u :
  pulse_matrix self = Return (t, u) →
  ctrls self ≠ [] →
  Forall rasterable (diff (tlist self)) ∧
  length (diff (tlist self)) ≤ snd (Np.shape (coeffs self)) ∧
  (diff (tlist self) ≠ [] →
   length (ctrls self) ≤ fst (Np.shape (coeffs self))).
Proof.
  intros (n_t & _ & _ & _ & t_end & Hloop)%pulse_matrix_Return Hctrls.
  assert (0 < length (ctrls self)) as Hops.
  { destruct (ctrls self); [done|cbn; lia]. }
  assert (∀ n m, n < length (diff (tlist self)) → m < length (ctrls self) →
            rasterable (nth n (diff (tlist self)) 0%float) ∧
            n < snd (Np.shape (coeffs self)) ∧
            m < fst (Np.shape (coeffs self))) as Hpass.
  { intros n m Hn Hm.
    destruct (for_each_Return_elem _ _ _ _ Hloop n) as (s0 & s1 & Hseg).
    { apply elem_of_seq. lia. }
    by apply (fill_segment_Return _ _ _ _ _ _ m) in Hseg. }
  split_and!.
  - apply Forall_lookup. intros n d Hd.
    rewrite <- (nth_lookup_Some _ _ 0%float _ Hd).
    apply (Hpass n 0); [by eapply lookup_lt_Some|done].
  - destruct (diff (tlist self)) as [|d ds] eqn:Hds; [cbn; lia|].
    destruct (Hpass (length ds) 0) as (_ & Hn & _); cbn; lia.
  - intros Hne. destruct (diff (tlist self)) as [|d ds] eqn:Hds; [done|].
    destruct (Hpass 0 (length (ctrls self) - 1)) as (_ & _ & Hm); cbn; lia.
Qed.

Lemma pulse_matrix_returns_only_if_witness :
  Forall rasterable (diff (tlist one_segment_processor)) ∧
  length (diff (tlist one_segment_processor)) ≤ 1 ∧
  (diff (tlist one_segment_processor) ≠ [] → 1 ≤ 1).
Proof.
  destruct (pulse_matrix_loaded one_segment_processor one_segment_loaded)
    as (t & Hrun).
  exact (pulse_matrix_returns_only_if one_segment_processor _ _ Hrun
           ltac:(discriminate)).
Defined.

Lemma fill_segment_no_controls H_u ds n u t_start k :
  F64.int_floor (nth n ds 0 / dt)%float = Return k →
  fill_segment H_u 0 ds n (u, t_start) = Return (u, (t_start + k)%Z).
Proof. intros Hk. unfold fill_segment. by rewrite Hk. Qed.

Lemma fill_segments_no_controls H_u ds xs u t_start :
  Forall (λ n, is_Return (F64.int_floor (nth n ds 0 / dt)%float) = true) xs →
  ∃ t_end, for_each xs (fill_segment H_u 0 ds) (u, t_start) = Return (u, t_end).
Proof.
  intros Hxs. revert t_start. induction Hxs as [|n xs Hn _ IH]; intros t_start.
  - by exists t_start.
  - cbn [for_each].
    destruct (F64.int_floor (nth n ds 0 / dt)%float) as [k|e] eqn:Hk; [|done].
    rewrite (fill_segment_no_controls _ _ _ _ _ _ Hk). cbn. apply IH.
Qed.

(** Without controls nothing is read or written in the loops: the call
    returns a raster without rows as soon as the code gets a number of
    steps for every segment and a number of columns that is not negative
    for the whole, also for a schedule with a segment that goes
    backwards and whatever the coefficient matrix is. *)
Theorem pulse_matrix_no_controls {Qobj} (self : ModelProcessor.t Qobj) n_t :
  ctrls self = [] →
  F64.int_ceil (sum (diff (tlist self)) / dt)%float = Return n_t →
  (0 ≤ n_t)%Z →
  Forall (λ d, is_Return (F64.int_floor (d / dt)%float) = true) (diff (tlist self)) →
  ∃ t, pulse_matrix self = Return (t, Np.Array2 (0, Z.to_nat n_t) []).
Proof.
  intros Hctrls Hceil Hn_t Hds.
  unfold pulse_matrix, get_ops_and_u. rewrite Hctrls. cbn zeta.
  rewrite Hceil. cbn [mbind result_bind].
  destruct (Np.linspace _ _ n_t) as [t|e] eqn:Ht; last first.
  { unfold Np.linspace in Ht. by rewrite decide_False in Ht by lia. }
  cbn [mbind result_bind length]. unfold Np.zeros.
  rewrite decide_False by lia. cbn [mbind result_bind replicate].
  destruct (fill_segments_no_controls (Np.T (coeffs self)) (diff (tlist self))
              (seq 0 (length (diff (tlist self))))
              (Np.Array2 (0, Z.to_nat n_t) []) 0%Z) as [t_end ->].
  { apply Forall_forall. intros n Hn%elem_of_seq.
    destruct (lookup_lt_is_Some_2 (diff (tlist self)) n) as [d Hd]; [lia|].
    rewrite (nth_lookup_Some _ _ _ _ Hd).
    exact (proj1 (Forall_lookup _ _) Hds n d Hd). }
  cbn. by exists t.
Qed.

Lemma pulse_matrix_no_controls_witness :
  ∃ t, pulse_matrix (processor_with 0 [0; 2; 1]%float (Np.Array2 (0, 0) [])) =
       Return (t, Np.Array2 (0, Z.to_nat 100) []).
Proof.
  apply (pulse_matrix_no_controls
           (processor_with 0 [0; 2; 1]%float (Np.Array2 (0, 0) [])) 100%Z).
  - reflexivity.
  - vm_compute. reflexivity.
  - lia.
  - repeat constructor.
Defined.

(** The steps of every segment are computed also when there is no
    control to fill: on the timeline [[0, 1e308, 0]] the segments add up
    to zero, and the call raises on the quotient of the first segment,
    which is infinite. *)
Lemma pulse_matrix_no_controls_overflow :
  pulse_matrix (processor_with 0 [0; 0x1.1ccf385ebc8ap+1023; 0]%float
                  (Np.Array2 (0, 0) [])) =
  Raise (OverflowError "cannot convert float infinity to integer").
Proof. vm_compute. reflexivity. Qed.

(** The steps that flooring leaves over: for a loaded schedule the
    steps of the segments fill the first columns of the raster, and in
    every row the columns after them are zero. *)
Theorem pulse_matrix_remainder {Qobj} (self : ModelProcessor.t Qobj) :
  schedule_loaded self →
  let ds := diff (tlist self) in
  let n_t := columns ds in
  let held := sum_list_with steps ds in
  ∃ t u,
    pulse_matrix self = Return (t, u) ∧
    ∀ m k, m < length (ctrls self) → held ≤ k < n_t →
      Np.get u m k = Return 0%R.
Proof.
  intros Hloaded ds n_t held.
  destruct (pulse_matrix_loaded self Hloaded) as (t & Hrun).
  fold ds n_t in Hrun.
  destruct Hloaded as (_ & _ & _ & Hds & _ & Hfit).
  fold ds n_t held in Hfit.
  eexists _, _. split; [exact Hrun|].
  intros m k Hm Hk. unfold Np.get. cbn [Np.shape Np.data fst snd].
  rewrite decide_True by lia. f_equal.
  erewrite (nth_lookup_Some _ m); last first.
  { rewrite list_lookup_fmap, lookup_seq_lt by done. done. }
  apply nth_lookup_Some. unfold raster_row, raster_upto.
  rewrite lookup_app_r; rewrite length_held_upto, firstn_all by done;
    [|fold held; lia].
  apply lookup_replicate_2. fold held. lia.
Qed.

Lemma two_segment_loaded : schedule_loaded two_segment_processor.
Proof.
  unfold schedule_loaded, Np.wf. cbn zeta.
  change (diff (tlist two_segment_processor))
    with [(f0_1 - 0)%float; (f0_3 - f0_1)%float].
  split_and!.
  - done.
  - by repeat constructor.
  - done.
  - cbn. lia.
  - repeat constructor.
    + exists 10%Z. split; [vm_compute; reflexivity|lia].
    + exists 19%Z. split; [vm_compute; reflexivity|lia].
  - vm_compute. reflexivity.
  - apply Nat.leb_le. vm_compute. reflexivity.
Qed.

Lemma pulse_matrix_remainder_witness :
  sum_list_with steps (diff (tlist two_segment_processor)) = 29 ∧
  columns (diff (tlist two_segment_processor)) = 30 ∧
  ∃ t u,
    pulse_matrix two_segment_processor = Return (t, u) ∧
    Np.get u 0 29 = Return 0%R.
Proof.
  assert (sum_list_with steps (diff (tlist two_segment_processor)) = 29) as Hheld
    by (vm_compute; reflexivity).
  assert (columns (diff (tlist two_segment_processor)) = 30) as Hcols
    by (vm_compute; reflexivity).
  split_and!; [done..|].
  destruct (pulse_matrix_remainder two_segment_processor two_segment_loaded)
    as (t & u & Hrun & Hzero).
  exists t, u. split; [done|].
  apply Hzero; [cbn; lia|]. rewrite Hheld, Hcols. lia.
Defined.

Lemma slice_bound_le n i : Np.slice_bound n i ≤ n.
Proof. unfold Np.slice_bound. case_decide; lia. Qed.

(** A slice assignment that succeeds keeps the length of the row. *)
Lemma set_slice_length row start stop v row' :
  Np.set_slice row start stop v = Return row' → length row' = length row.
Proof.
  unfold Np.set_slice.
  pose proof (slice_bound_le (length row) start) as Ha.
  pose proof (slice_bound_le (length row) stop) as Hb.
  set (a := Np.slice_bound (length row) start) in *.
  set (b := Np.slice_bound (length row) stop) in *.
  case_decide as Hv.
  - intros [= <-]. rewrite !length_app, length_take, length_drop. lia.
  - destruct v as [|x [|y v]]; [done| |done].
    intros [= <-].
    rewrite !length_app, length_take, length_replicate, length_drop. lia.
Qed.

Lemma set_row_slice_wf u i start stop v u' :
  Np.set_row_slice u i start stop v = Return u' →
  Np.wf u → Np.wf u' ∧ Np.shape u' = Np.shape u.
Proof.
  unfold Np.set_row_slice.
  destruct (Np.data u !! i) as [row|] eqn:Hrow; [|done].
  destruct (Np.set_slice row start stop v) as [row'|e] eqn:Hset; [|done].
  cbn. intros [= <-] [Hlen Hrows]. split; [|done].
  split; cbn [Np.data Np.shape].
  - by rewrite length_insert.
  - apply Forall_insert; [done|].
    rewrite (set_slice_length _ _ _ _ _ Hset).
    exact (proj1 (Forall_lookup _ _) Hrows i row Hrow).
Qed.

(** Whenever [pulse_matrix] returns, the raster is a well-formed array
    with one row for each control, and each row has as many entries as
    the time grid. *)
Theorem pulse_matrix_output_shape {Qobj} (self : ModelProcessor.t Qobj) t u :
  pulse_matrix self = Return (t, u) →
  Np.wf u ∧ Np.shape u = (length (ctrls self), length t).
Proof.
  intros (n_t0 & _ & Hn_t & Ht & t_end & Hloop)%pulse_matrix_Return.
  assert (length t = Z.to_nat n_t0) as ->.
  { apply (length_linspace 0 (sum (diff (tlist self)))). by rewrite Z2Nat.id. }
  set (n_ops := length (ctrls self)) in *.
  set (n_t := Z.to_nat n_t0) in *.
  pose (P := λ A (s : Np.ndarray2 * A),
          Np.wf (fst s) ∧ Np.shape (fst s) = (n_ops, n_t)).
  enough (P Z (u, t_end)) as Hend by exact Hend.
  eapply (for_each_invariant (P Z)); [|..|exact Hloop].
  - intros n [u0 ts] s1 HP. unfold fill_segment.
    destruct (F64.int_floor _) as [t_idx_len|e]; [|done]. cbn [mbind result_bind].
    destruct (for_each (seq 0 n_ops) _ (u0, 0)) as [[u1 mm]|e] eqn:Hinner; [|done].
    cbn. intros [= <-].
    enough (P nat (u1, mm)) as Hinv by exact Hinv.
    eapply (for_each_invariant (P nat) _ _ (u0, 0)); [|exact HP|exact Hinner].
    intros m [u2 mm2] s2 [Hwf Hsh]. unfold fill_row.
    destruct (Np.ones _) as [ones|e]; [|done].
    destruct (Np.get _ n m) as [c|e]; [|done]. cbn.
    destruct (Np.set_row_slice _ _ _ _ _) as [u3|e] eqn:Hset; [|done].
    cbn. intros [= <-].
    destruct (set_row_slice_wf _ _ _ _ _ _ Hset Hwf) as [Hwf3 Hsh3].
    split; [done|]. cbn. by rewrite Hsh3.
  - split; [|done]. split; cbn.
    + by rewrite length_replicate.
    + apply Forall_forall. intros row ->%elem_of_replicate_inv.
      by rewrite length_replicate.
Qed.

Lemma pulse_matrix_output_shape_witness :
  ∃ t u,
    pulse_matrix one_segment_processor = Return (t, u) ∧
    Np.wf u ∧ Np.shape u = (1, length t).
Proof.
  destruct (pulse_matrix_loaded one_segment_processor one_segment_loaded)
    as (t & Hrun).
  eexists t, _. split; [exact Hrun|].
  exact (pulse_matrix_output_shape one_segment_processor _ _ Hrun).
Defined.

Lemma map_nth_seq (l : list R) d :
  map (λ j, nth j l d) (seq 0 (length l)) = l.
Proof.
  apply list_eq. intros k. change map with (@fmap list _).
  rewrite list_lookup_fmap.
  destruct (l !! k) as [x|] eqn:Hk.
  - rewrite lookup_seq_lt by (by eapply lookup_lt_Some). cbn.
    by rewrite (nth_lookup_Some _ _ _ _ Hk).
  - rewrite lookup_seq_ge; [done|]. by apply lookup_ge_None.
Qed.

(** Transposing twice gives a well-formed array back. *)
Lemma T_T a : Np.wf a → Np.T (Np.T a) = a.
Proof.
  destruct a as [[n c] rws]. intros [Hn Hrows]. cbn in Hn, Hrows.
  unfold Np.T. cbn [Np.shape Np.data fst snd]. f_equal.
  apply list_eq. intros i. change map with (@fmap list _) at 1.
  rewrite list_lookup_fmap.
  destruct (rws !! i) as [row|] eqn:Hi.
  - rewrite lookup_seq_lt by (apply lookup_lt_Some in Hi; lia). cbn. f_equal.
    rewrite map_map.
    rewrite <- (map_nth_seq row 0%R) at 1.
    rewrite (proj1 (Forall_lookup _ _) Hrows i row Hi).
    apply map_ext. intros j.
    erewrite (nth_lookup_Some _ i); [done|].
    change map with (@fmap list _). by rewrite list_lookup_fmap, Hi.
  - rewrite lookup_seq_ge; [done|]. apply lookup_ge_None in Hi. lia.
Qed.

(** The table [H_u] that [get_ops_and_u] gives for the matrix returned
    by [decompose] is the stack of the accumulated rows: the two
    transpositions cancel, and row [n] of the table is what was
    appended for segment [n]. *)
Theorem get_ops_and_u_decompose gates d tl cs d' {Qobj}
    (self : ModelProcessor.t Qobj) :
  decompose gates d = (Return (tl, cs), d') →
  coeffs self = cs →
  snd (get_ops_and_u self) =
  Np.Array2 (length (coeff_list d'), fst (Np.shape cs)) (coeff_list d').
Proof.
  intros (_ & -> & _ & r & rs & Hr & Hlen & ->)%decompose_Return Hcs.
  cbn [coeff_list] in *. unfold get_ops_and_u. cbn [snd]. rewrite Hcs, Hr.
  rewrite T_T; [done|]. split; [done|]. cbn. by constructor.
Qed.

Lemma get_ops_and_u_decompose_witness :
  snd (get_ops_and_u
         (processor_with 2 [0; 1; 2]%float (Np.Array2 (2, 2) [[3; 3]; [0; 0]]%R))) =
  Np.Array2 (2, 2) [[3; 0]; [3; 0]]%R.
Proof.
  exact (get_ops_and_u_decompose [X_gate; X_gate] X_decomposer _ _ _
           (processor_with 2 [0; 1; 2]%float (Np.Array2 (2, 2) [[3; 3]; [0; 0]]%R))
           decompose_XX eq_refl).
Defined.

End ModelProcessorMore.
